(** * subnamd: generation and submission of SLURM scripts for NAMD jobs

    A shallow embedding of [src/subnamd/subnamd.py] and the properties of
    its four components: the wall-time validator, the job-name deriver,
    the script generator and the submission driver.

    Python values are modelled as follows.  A [str] is the list of its
    Unicode code points, [bytes] a list of bytes, an [int] an element of
    [Z].  A [pathlib.PurePosixPath] is the pair of its root and its
    components.  Effects (files opened and written, lines printed, external
    commands run) are collected in a trace of events; the external world
    (the scheduler behind [sbatch]) is an explicit state threaded through
    the submissions. *)

From Stdlib Require Import List NArith ZArith Bool Ascii String Lia.
From Stdlib Require Import Strings.Byte.
From Stdlib Require Import DecimalString.
Import ListNotations.

Local Open Scope N_scope.
Local Open Scope list_scope.

(** ** Strings *)

(** A Unicode code point. *)
Definition char := N.

(** A Python [str]. *)
Definition str := list char.

(** A Python [bytes] object. *)
Definition bytes := list byte.

(** The [str] written by a literal of the source. *)
Fixpoint lit (s : string) : str :=
  match s with
  | EmptyString => []
  | String a s' => N_of_ascii a :: lit s'
  end.

Arguments lit s%_string.

Fixpoint str_eqb (a b : str) : bool :=
  match a, b with
  | [], [] => true
  | x :: a', y :: b' => (x =? y) && str_eqb a' b'
  | _, _ => false
  end.

(** The newline character, which a literal cannot hold. *)
Definition NL : str := [10].

(** [sep.join(l)]. *)
Fixpoint join (sep : str) (l : list str) : str :=
  match l with
  | [] => []
  | [x] => x
  | x :: rest => x ++ sep ++ join sep rest
  end.

(** [str(n)] and [f"{n}"] for an [int]. *)
Definition str_of_int (n : Z) : str :=
  lit (NilZero.string_of_int (Z.to_int n)).

(** [c.isspace()]: the code points [str.split()] separates on. *)
Definition py_isspace (c : char) : bool :=
  ((9 <=? c) && (c <=? 13))
  || ((28 <=? c) && (c <=? 32))
  || (c =? 133) || (c =? 160) || (c =? 5760)
  || ((8192 <=? c) && (c <=? 8202))
  || (c =? 8232) || (c =? 8233) || (c =? 8239) || (c =? 8287)
  || (c =? 12288).

(** [s.split()]: the maximal runs of non-whitespace characters, in order.
    [tok] is the token being read. *)
Fixpoint split_from (tok : str) (s : str) : list str :=
  match s with
  | [] => match tok with [] => [] | _ => [tok] end
  | c :: s' =>
      if py_isspace c
      then match tok with
           | [] => split_from [] s'
           | _ => tok :: split_from [] s'
           end
      else split_from (tok ++ [c]) s'
  end.

Definition split (s : str) : list str := split_from [] s.

(** [l[-1]]: the last item, [None] standing for [IndexError]. *)
Fixpoint last_item {A : Type} (l : list A) : option A :=
  match l with
  | [] => None
  | [x] => Some x
  | _ :: l' => last_item l'
  end.

(** *** UTF-8 *)

Definition is_cont (b : N) : bool := (128 <=? b) && (b <=? 191).

Definition cont_bits (b : N) : N := b - 128.

(** [data.decode("utf-8")] with the default strict error handler; [None]
    stands for [UnicodeDecodeError].  Overlong forms, surrogates and code
    points above U+10FFFF are refused. *)
Fixpoint utf8_decode (data : bytes) : option str :=
  match data with
  | [] => Some []
  | b0 :: r0 =>
      let n0 := Byte.to_N b0 in
      if n0 <? 128 then option_map (cons n0) (utf8_decode r0)
      else match r0 with
      | [] => None
      | b1 :: r1 =>
          let n1 := Byte.to_N b1 in
          if (194 <=? n0) && (n0 <=? 223) then
            if is_cont n1
            then option_map (cons ((n0 - 192) * 64 + cont_bits n1)) (utf8_decode r1)
            else None
          else match r1 with
          | [] => None
          | b2 :: r2 =>
              let n2 := Byte.to_N b2 in
              if (224 <=? n0) && (n0 <=? 239) then
                if (if n0 =? 224 then (160 <=? n1) && (n1 <=? 191)
                    else if n0 =? 237 then (128 <=? n1) && (n1 <=? 159)
                    else is_cont n1) && is_cont n2
                then option_map
                       (cons ((n0 - 224) * 4096 + cont_bits n1 * 64 + cont_bits n2))
                       (utf8_decode r2)
                else None
              else match r2 with
              | [] => None
              | b3 :: r3 =>
                  let n3 := Byte.to_N b3 in
                  if (240 <=? n0) && (n0 <=? 244) then
                    if (if n0 =? 240 then (144 <=? n1) && (n1 <=? 191)
                        else if n0 =? 244 then (128 <=? n1) && (n1 <=? 143)
                        else is_cont n1) && is_cont n2 && is_cont n3
                    then option_map
                           (cons ((n0 - 240) * 262144 + cont_bits n1 * 4096
                                  + cont_bits n2 * 64 + cont_bits n3))
                           (utf8_decode r3)
                    else None
                  else None
              end
          end
      end
  end.

(** The bytes of an ASCII literal, as an external command may print them. *)
Fixpoint ascii_bytes (s : string) : bytes :=
  match s with
  | EmptyString => []
  | String a s' => byte_of_ascii a :: ascii_bytes s'
  end.

Arguments ascii_bytes s%_string.

(** ** Regular expressions

    The fragment of Python's [re] that the wall-time pattern uses, matched
    by backtracking in the order [re] tries the alternatives: a greedy
    optional tries its body first, a lazy one tries to skip it first. *)

Inductive regex : Type :=
| RChar (c : char)                    (* a literal character *)
| RPlus (cls : char -> bool)          (* [cls+]: one or more of a class, greedy *)
| RSeq (a b : regex)                  (* [ab] *)
| ROpt (greedy : bool) (a : regex)    (* [a?] when greedy, [a??] when lazy *)
| RGroup (name : string) (a : regex). (* [(?P<name>a)]; a numbered group has the empty name *)

(** [cls*] followed by the continuation [k], longest run first. *)
Fixpoint match_star (cls : char -> bool) (s : str) (k : str -> bool) : bool :=
  match s with
  | [] => k []
  | c :: s' => (cls c && match_star cls s' k) || k s
  end.

(** [match_re r s k]: some prefix of [s] matches [r] and the rest satisfies [k]. *)
Fixpoint match_re (r : regex) (s : str) (k : str -> bool) : bool :=
  match r with
  | RChar c =>
      match s with
      | c' :: s' => (c' =? c) && k s'
      | [] => false
      end
  | RPlus cls =>
      match s with
      | c :: s' => cls c && match_star cls s' k
      | [] => false
      end
  | RSeq a b => match_re a s (fun s' => match_re b s' k)
  | ROpt true a => match_re a s k || k s
  | ROpt false a => k s || match_re a s k
  | RGroup _ a => match_re a s k
  end.

(** [$] without [re.MULTILINE]: the end of the string, or just before a
    newline that ends the string. *)
Definition at_end (s : str) : bool :=
  match s with
  | [] => true
  | [c] => c =? 10
  | _ => false
  end.

(** [pattern.match(value)] is truthy, for a pattern that ends in [$]. *)
Definition re_match (r : regex) (value : str) : bool := match_re r value at_end.

(** The strings a regular expression denotes. *)
Fixpoint lang (r : regex) (s : str) : Prop :=
  match r with
  | RChar c => s = [c]
  | RPlus cls => s <> [] /\ Forall (fun c => cls c = true) s
  | RSeq a b => exists s1 s2, s = s1 ++ s2 /\ lang a s1 /\ lang b s2
  | ROpt _ a => s = [] \/ lang a s
  | RGroup _ a => lang a s
  end.

(** ** The wall-time validator *)

(** One piece of an f-string: literal text, or [{v!r}]. *)
Inductive fpiece : Type :=
| FText (s : str)
| FRepr (v : str).

(** [click.BadParameter(message)], which [self.fail] raises. *)
Inductive click_error : Type :=
| BadParameter (message : list fpiece).

Section WallTime.

(** [\d] on a [str] pattern: the decimal digits of the interpreter's Unicode
    database (category Nd), among them the ASCII digits. *)
Variable is_decimal : char -> bool.

Definition digits1 : regex := RPlus is_decimal.

(** The pattern of [WallTimeParamType.convert], between [^] and [$]:
<<
    (?P<days>\d+)??         # optional days, non-greedy
    (-?(?P<hours>\d+):?)??  # optional hours, non-greedy
    (?P<minutes>\d+)?       # optional minutes, greedy
    (:(?P<seconds>\d+))?    # optional seconds, greedy
>> *)
Definition walltime_pattern : regex :=
  RSeq (ROpt false (RGroup "days" digits1))
    (RSeq (ROpt false
             (RGroup ""
                (RSeq (ROpt true (RChar 45))
                   (RSeq (RGroup "hours" digits1) (ROpt true (RChar 58))))))
       (RSeq (ROpt true (RGroup "minutes" digits1))
          (ROpt true (RGroup "" (RSeq (RChar 58) (RGroup "seconds" digits1)))))).

(** [WallTimeParamType.convert]: the value itself when the pattern matches,
    and [self.fail(f"{value!r} is not a valid walltime", param, ctx)]
    otherwise. *)
Definition convert (value : str) : str + click_error :=
  if re_match walltime_pattern value
  then inl value
  else inr (BadParameter [FRepr value; FText (lit " is not a valid walltime")]).

(** The grammar of the specification, [[days][[-]hours:][minutes][:seconds]],
    read literally: the hours are followed by a colon. *)
Definition spec_grammar : regex :=
  RSeq (ROpt true digits1)
    (RSeq (ROpt true (RSeq (ROpt true (RChar 45)) (RSeq digits1 (RChar 58))))
       (RSeq (ROpt true digits1)
          (ROpt true (RSeq (RChar 58) digits1)))).

(** A component: one or more digits. *)
Definition digits (s : str) : Prop :=
  s <> [] /\ Forall (fun c => is_decimal c = true) s.

(** The hours, with the hyphen that separates them from the days and the
    colon that separates them from the minutes each present or not. *)
Definition hours_part (s : str) : Prop :=
  exists h, digits h /\
    (s = h \/ s = 45 :: h \/ s = h ++ [58] \/ s = 45 :: h ++ [58]).

Definition seconds_part (s : str) : Prop :=
  exists d, digits d /\ s = 58 :: d.

(** The strings of the shape [[days][[-]hours[:]][minutes][:seconds]]. *)
Definition walltime_shape (v : str) : Prop :=
  exists days hours minutes seconds,
    v = days ++ hours ++ minutes ++ seconds
    /\ (days = [] \/ digits days)
    /\ (hours = [] \/ hours_part hours)
    /\ (minutes = [] \/ digits minutes)
    /\ (seconds = [] \/ seconds_part seconds).

(** A digit, a colon or a hyphen. *)
Definition walltime_char (c : char) : bool :=
  is_decimal c || (c =? 58) || (c =? 45).

End WallTime.

(** The ASCII digits, which every Unicode database has among its decimal
    digits. *)
Definition ascii_digit (c : char) : bool := (48 <=? c) && (c <=? 57).

Definition ends_with_newline (s : str) : bool :=
  match last_item s with
  | Some c => c =? 10
  | None => false
  end.

(** ** Paths *)

(** A [pathlib.PurePosixPath]: its root (empty for a relative path, ["/"],
    or ["//"]) and its components below the root. *)
Record PurePath : Type := mkPath { root : str; comps : list str }.

(** The pieces of [s] between the occurrences of [sep]. *)
Fixpoint split_on (sep : char) (s : str) : list str :=
  match s with
  | [] => [[]]
  | c :: s' =>
      if c =? sep then [] :: split_on sep s'
      else match split_on sep s' with
           | [] => [[c]]
           | w :: ws => (c :: w) :: ws
           end
  end.

(** The root of a POSIX path: exactly two leading slashes are kept, any
    other number of them is one. *)
Definition posix_root (s : str) : str :=
  match s with
  | 47 :: 47 :: 47 :: _ => [47]
  | 47 :: 47 :: _ => [47; 47]
  | 47 :: _ => [47]
  | _ => []
  end.

(** A component that parsing drops: empty, or a single dot. *)
Definition dropped (w : str) : bool := str_eqb w [] || str_eqb w [46].

(** [pathlib.Path(s)]. *)
Definition Path (s : str) : PurePath :=
  {| root := posix_root s;
     comps := filter (fun w => negb (dropped w)) (split_on 47 s) |}.

(** [str(p)]. *)
Definition str_of_path (p : PurePath) : str :=
  match root p, comps p with
  | [], [] => [46]
  | r, cs => r ++ join [47] cs
  end.

(** [p.parts]. *)
Definition parts (p : PurePath) : list str :=
  match root p with
  | [] => comps p
  | r => r :: comps p
  end.

Definition is_absolute (p : PurePath) : bool :=
  match root p with [] => false | _ => true end.

(** [p == q], which on POSIX compares the parts as they are. *)
Definition Path_eqb (p q : PurePath) : bool :=
  str_eqb (root p) (root q)
  && (fix eqb (a b : list str) : bool :=
        match a, b with
        | [], [] => true
        | x :: a', y :: b' => str_eqb x y && eqb a' b'
        | _, _ => false
        end) (comps p) (comps q).

(** [a / b] for two paths: an absolute [b] replaces [a]. *)
Definition join_paths (a b : PurePath) : PurePath :=
  if is_absolute b then b
  else {| root := root a; comps := comps a ++ comps b |}.

(** [p / s] for a path and a [str]. *)
Definition truediv (p : PurePath) (s : str) : PurePath := join_paths p (Path s).

(** [s / p] for a [str] and a path. *)
Definition rtruediv (s : str) (p : PurePath) : PurePath := join_paths (Path s) p.

(** [p.name]: the last component, empty for a root or for [.]. *)
Definition name (p : PurePath) : str := last (comps p) [].

(** [p.parent]: a path without components is its own parent. *)
Definition parent (p : PurePath) : PurePath :=
  {| root := root p; comps := removelast (comps p) |}.

(** The proper prefixes of a list, shortest first. *)
Fixpoint proper_prefixes {A : Type} (l : list A) : list (list A) :=
  match l with
  | [] => []
  | x :: l' => [] :: map (cons x) (proper_prefixes l')
  end.

(** [p.parents]: the ancestors of [p], nearest first. *)
Definition parents (p : PurePath) : list PurePath :=
  map (mkPath (root p)) (rev (proper_prefixes (comps p))).

(** [l] without the prefix [pre], when it starts with it. *)
Fixpoint strip_prefix (pre l : list str) : option (list str) :=
  match pre, l with
  | [], _ => Some l
  | x :: pre', y :: l' => if str_eqb x y then strip_prefix pre' l' else None
  | _ :: _, [] => None
  end.

(** [p.relative_to(q)]; [None] stands for the [ValueError] raised when [p]
    is not below [q]. *)
Definition relative_to (p q : PurePath) : option PurePath :=
  if str_eqb (root p) (root q)
  then option_map (mkPath []) (strip_prefix (comps q) (comps p))
  else None.

(** The index of the last dot of a name. *)
Fixpoint rfind_dot (s : str) : option nat :=
  match s with
  | [] => None
  | c :: s' =>
      match rfind_dot s' with
      | Some i => Some (S i)
      | None => if c =? 46 then Some O else None
      end
  end.

(** Where the suffix of a name starts: at its last dot, unless that dot is
    the first or the last character of the name. *)
Definition suffix_start (nm : str) : option nat :=
  match rfind_dot nm with
  | Some i => if (0 <? i)%nat && (i <? List.length nm - 1)%nat then Some i else None
  | None => None
  end.

(** [p.suffix]. *)
Definition suffix (p : PurePath) : str :=
  match suffix_start (name p) with
  | Some i => skipn i (name p)
  | None => []
  end.

(** [p.stem]. *)
Definition stem (p : PurePath) : str :=
  match suffix_start (name p) with
  | Some i => firstn i (name p)
  | None => name p
  end.

(** [p.with_suffix(sfx)] for a suffix that is a dot followed by characters
    other than a slash, as [".slurm"] is; [None] stands for the [ValueError]
    raised for a path with an empty name. *)
Definition with_suffix (p : PurePath) (sfx : str) : option PurePath :=
  match name p with
  | [] => None
  | _ => Some {| root := root p; comps := removelast (comps p) ++ [stem p ++ sfx] |}
  end.

(** ** The operating system and the scheduler *)

(** What the program asks of the operating system.  The answers do not
    change during a run: the generator, which alone asks where directories
    are, writes files and creates no directory. *)
Record OS : Type := mkOS {
  getcwd : str;                  (* [os.getcwd()], behind [Path.absolute] *)
  home_dir : str;                (* [os.path.expanduser("~")], behind [Path.home] *)
  is_dir : PurePath -> bool;     (* [Path.is_dir] *)
  may_open : PurePath -> bool    (* [open(p, "w")] succeeds *)
}.

(** How [subprocess.run(cmdline, capture_output=True, cwd=...)] ends: it
    raises without a result (the command is missing, the directory cannot
    be entered, ...), or the command exits with a status and an output. *)
Inductive run_outcome : Type :=
| RunRaised (msg : str)
| RunExited (returncode : Z) (stdout : bytes).

(** The external [sbatch]: from the state of the world, the command line and
    the working directory, the next state and how the run ends. *)
Definition scheduler (World : Type) : Type :=
  World -> list str -> PurePath -> World * run_outcome.

(** The observable effects, in the order they happen. *)
Inductive event : Type :=
| EvOpen (p : PurePath)                 (* [open(p, "w")]: created or truncated *)
| EvWrite (p : PurePath) (s : str)      (* [f.write(s)], or one item of [f.writelines] *)
| EvClose (p : PurePath)                (* the end of the [with] block *)
| EvPrint (s : str)                     (* [print(s)] *)
| EvRun (cmdline : list str) (cwd : PurePath) (out : run_outcome).
                                        (* [subprocess.run(cmdline, cwd=cwd)] and how it ended *)

(** The exceptions the program can meet. *)
Inductive exn : Type :=
| ValueError_empty_name (p : PurePath)      (* [with_suffix] on a path with an empty name *)
| ValueError_not_relative (p q : PurePath)  (* [relative_to] *)
| AttributeError_None_parts                 (* [None.parts] *)
| OSError_open (p : PurePath)               (* [open] failed *)
| RunError (msg : str)                      (* [subprocess.run] raised; [str(e)] is [msg] *)
| CalledProcessError (cmd : list str) (returncode : Z)
| UnicodeDecodeError (data : bytes)
| IndexError.                               (* list index out of range *)

(** How a computation ends: it returns, it raises an exception, or it
    leaves through [sys.exit(f"{e}")], whose message is [str(e)]. *)
Inductive outcome (A : Type) : Type :=
| Return (a : A)
| Raise (e : exn)
| SysExit (e : exn).

Arguments Return {A} a.
Arguments Raise {A} e.
Arguments SysExit {A} e.

(** The exit status of the process: 0 when [main] returns, 1 for an uncaught
    exception and for [sys.exit] with a message. *)
Definition exit_status (r : outcome unit) : Z :=
  match r with
  | Return _ => 0%Z
  | Raise _ => 1%Z
  | SysExit _ => 1%Z
  end.

(** A job id in a dependency clause: the [int] of [--after], or the [str]
    parsed from the output of [sbatch]. *)
Inductive jobref : Type :=
| JobInt (n : Z)
| JobStr (s : str).

(** [f"{after}"]. *)
Definition format_jobref (j : jobref) : str :=
  match j with
  | JobInt n => str_of_int n
  | JobStr s => s
  end.

Section Effects.

Variable World : Type.

(** What a run leaves behind. *)
Record ran (A : Type) : Type := mkRan {
  events : list event;
  final : World;
  result : outcome A
}.

Arguments mkRan {A} events final result.
Arguments events {A} r.
Arguments final {A} r.
Arguments result {A} r.

(** A computation with effects. *)
Definition M (A : Type) : Type := World -> ran A.

Definition ret {A : Type} (a : A) : M A := fun w => mkRan [] w (Return a).

Definition raise {A : Type} (e : exn) : M A := fun w => mkRan [] w (Raise e).

(** [sys.exit(f"{e}")]. *)
Definition sys_exit {A : Type} (e : exn) : M A := fun w => mkRan [] w (SysExit e).

Definition emit (ev : event) : M unit := fun w => mkRan [ev] w (Return tt).

Definition bind {A B : Type} (m : M A) (f : A -> M B) : M B :=
  fun w =>
    let r := m w in
    match result r with
    | Return a =>
        let r' := f a (final r) in
        mkRan (events r ++ events r') (final r') (result r')
    | Raise e => mkRan (events r) (final r) (Raise e)
    | SysExit e => mkRan (events r) (final r) (SysExit e)
    end.

(** [try: m except Exception as e: handler e]; [SystemExit] is no
    [Exception] and passes through. *)
Definition try_except {A : Type} (m : M A) (handler : exn -> M A) : M A :=
  fun w =>
    let r := m w in
    match result r with
    | Raise e =>
        let r' := handler e (final r) in
        mkRan (events r ++ events r') (final r') (result r')
    | _ => r
    end.

(** [with open(p, "w") as f: body]: the file is closed however the body ends. *)
Definition with_open (os : OS) (p : PurePath) (body : M unit) : M unit :=
  fun w =>
    if may_open os p
    then let r := body w in
         mkRan (EvOpen p :: events r ++ [EvClose p]) (final r) (result r)
    else mkRan [] w (Raise (OSError_open p)).

(** [f.writelines(lines)]. *)
Fixpoint writelines (p : PurePath) (lines : list str) : M unit :=
  match lines with
  | [] => ret tt
  | l :: rest => bind (emit (EvWrite p l)) (fun _ => writelines p rest)
  end.

(** [subprocess.run(cmdline, check=True, capture_output=True, cwd=cwd).stdout]. *)
Definition subprocess_run (sbatch : scheduler World) (cmdline : list str)
    (cwd : PurePath) : M bytes :=
  fun w =>
    let (w', out) := sbatch w cmdline cwd in
    mkRan [EvRun cmdline cwd out] w'
      match out with
      | RunRaised msg => Raise (RunError msg)
      | RunExited rc stdout =>
          if (rc =? 0)%Z then Return stdout
          else Raise (CalledProcessError cmdline rc)
      end.

End Effects.

Arguments mkRan {World A} events final result.
Arguments events {World A} r.
Arguments final {World A} r.
Arguments result {World A} r.
Arguments ret {World A} a.
Arguments raise {World A} e.
Arguments sys_exit {World A} e.
Arguments emit {World} ev.
Arguments bind {World A B} m f.
Arguments try_except {World A} m handler.
Arguments with_open {World} os p body.
Arguments writelines {World} p lines.
Arguments subprocess_run {World} sbatch cmdline cwd.

Declare Scope eff_scope.
Delimit Scope eff_scope with eff.
Notation "x <- m ;; k" := (bind m (fun x => k))
  (at level 61, m at next level, right associativity) : eff_scope.
Notation "m ;; k" := (bind m (fun _ => k))
  (at level 61, right associativity) : eff_scope.
Local Open Scope eff_scope.

(** An optional value, with the exception that stands for its absence. *)
Definition or_raise {World A : Type} (o : option A) (e : exn) : M World A :=
  match o with
  | Some a => ret a
  | None => raise e
  end.

(** A value, or the exception raised in its place. *)
Definition lift {World A : Type} (r : exn + A) : M World A :=
  match r with
  | inr a => ret a
  | inl e => raise e
  end.

(** ** The job name *)

(** [path.absolute()]. *)
Definition absolute (os : OS) (p : PurePath) : PurePath :=
  if is_absolute p then p else join_paths (Path (getcwd os)) p.

(** The loop of [_path_relative_to_root] over [path.parents]. *)
Fixpoint walk_up (os : OS) (path home : PurePath) (ps : list PurePath)
  : exn + option PurePath :=
  match ps with
  | [] => inr None
  | p :: rest =>
      let git := truediv p (lit ".git") in
      if is_dir os git then
        match relative_to path p with
        | Some rel => inr (Some (rtruediv (name p) rel))
        | None => inl (ValueError_not_relative path p)
        end
      else if Path_eqb p home then
        match relative_to path p with
        | Some rel => inr (Some rel)
        | None => inl (ValueError_not_relative path p)
        end
      else walk_up os path home rest
  end.

(** [_path_relative_to_root]: the path relative to the nearest ancestor that
    holds a [.git] directory, with that ancestor's name in front, or relative
    to the home directory, whichever comes first; [None] when the walk
    reaches the root without either. *)
Definition _path_relative_to_root (os : OS) (path : PurePath)
  : exn + option PurePath :=
  let path := absolute os path in
  let home := Path (home_dir os) in
  walk_up os path home (parents path).

(** [_jobname]: the parts of that relative path, joined by underscores;
    [relative.parts] raises when [relative] is [None]. *)
Definition _jobname (os : OS) (path : PurePath) : exn + str :=
  match _path_relative_to_root os path with
  | inl e => inl e
  | inr None => inl AttributeError_None_parts
  | inr (Some relative) => inr (join (lit "_") (parts relative))
  end.

(** ** The script generator *)

Definition SLURM : str := lit ".slurm".

(** The lines written before the GPU directive. *)
Definition header (jobname wall_time : str) (ncpus : Z) : list str :=
  [ lit "#!/bin/bash" ++ NL;
    NL;
    lit "#SBATCH --job-name=" ++ jobname ++ NL;
    lit "#SBATCH --time=" ++ wall_time ++ NL;
    lit "#SBATCH --nodes=1" ++ NL;
    lit "#SBATCH --ntasks-per-node=" ++ str_of_int ncpus ++ NL ].

Definition gpus_directive (ngpus : Z) : str :=
  lit "#SBATCH --gpus=" ++ str_of_int ngpus ++ NL.

Definition environment : list str :=
  [ NL; lit "module purge" ++ NL; lit "module load namd3" ++ NL; NL ].

Definition namd_command (ncpus : Z) : str :=
  lit "namd3 +p " ++ str_of_int ncpus ++ lit " +setcpuaffinity".

Definition devices_flag : str := lit " +devices ${CUDA_VISIBLE_DEVICES}".

Definition redirection (path : PurePath) : str :=
  lit " " ++ name path ++ lit " > " ++ (stem path ++ lit ".out") ++ NL.

(** Everything written to a script, in order. *)
Definition script_pieces (jobname wall_time : str) (ncpus ngpus : Z)
    (path : PurePath) : list str :=
  header jobname wall_time ncpus
  ++ (if (0 <? ngpus)%Z then [gpus_directive ngpus] else [])
  ++ environment
  ++ [namd_command ncpus]
  ++ (if (0 <? ngpus)%Z then [devices_flag] else [])
  ++ [redirection path].

(** The body of the [with] block of [_prep].  Once the file is open, its
    writes are taken to succeed: a full disk, or a file name that cannot be
    encoded, is not modelled. *)
Definition write_script {World : Type} (os : OS) (path script : PurePath)
    (ncpus ngpus : Z) (wall_time : str) : M World unit :=
  jobname <- lift (_jobname os path) ;;
  writelines script (header jobname wall_time ncpus) ;;
  (if (0 <? ngpus)%Z then emit (EvWrite script (gpus_directive ngpus)) else ret tt) ;;
  writelines script environment ;;
  emit (EvWrite script (namd_command ncpus)) ;;
  (if (0 <? ngpus)%Z then emit (EvWrite script devices_flag) else ret tt) ;;
  emit (EvWrite script (redirection path)).

(** [_prep]: one submit script beside each config. *)
Fixpoint _prep {World : Type} (os : OS) (configs : list str)
    (ncpus ngpus : Z) (wall_time : str) : M World unit :=
  match configs with
  | [] => ret tt
  | c :: rest =>
      let path := Path c in
      script <- or_raise (with_suffix path SLURM) (ValueError_empty_name path) ;;
      with_open os script (write_script os path script ncpus ngpus wall_time) ;;
      _prep os rest ncpus ngpus wall_time
  end.

(** ** The submission driver *)

Definition dependency (after : option jobref) : list str :=
  match after with
  | Some a => [lit "--dependency=afterok:" ++ format_jobref a]
  | None => []
  end.

(** The command line of a submission: [sbatch], the script, and the
    dependency clause when a job id is in effect. *)
Definition submission (script : PurePath) (after : option jobref) : list str :=
  [lit "sbatch"; str_of_path script] ++ dependency after.

(** The body of the [try] block of [_submit]: the new value of [after]. *)
Definition run_and_parse {World : Type} (sbatch : scheduler World)
    (cmdline : list str) (cwd : PurePath) (after : option jobref) (chain : bool)
  : M World (option jobref) :=
  out <- subprocess_run sbatch cmdline cwd ;;
  stdout <- or_raise (utf8_decode out) (UnicodeDecodeError out) ;;
  jobid <- or_raise (last_item (split stdout)) IndexError ;;
  ret (if chain then Some (JobStr jobid) else after).

(** [_submit]: the scripts are submitted in order. *)
Fixpoint _submit {World : Type} (sbatch : scheduler World) (configs : list str)
    (after : option jobref) (chain : bool) : M World unit :=
  match configs with
  | [] => ret tt
  | c :: rest =>
      let path := Path c in
      script <- or_raise (with_suffix path SLURM) (ValueError_empty_name path) ;;
      let cmdline := submission script after in
      emit (EvPrint (lit "Running: " ++ join (lit " ") cmdline)) ;;
      after' <- try_except (run_and_parse sbatch cmdline (parent path) after chain)
                  (fun e => sys_exit e) ;;
      _submit sbatch rest after' chain
  end.

(** ** The entry point *)

(** [main], once click has parsed and validated the command line. *)
Definition main {World : Type} (sbatch : scheduler World) (os : OS)
    (config : str) (configs : list str) (ncpus ngpus : Z) (wall_time : str)
    (after : option Z) (chain dry_run : bool) : M World unit :=
  let configs := config :: configs in
  _prep os configs ncpus ngpus wall_time ;;
  if negb dry_run
  then _submit sbatch configs (option_map JobInt after) chain
  else ret tt.

(** ** Reading a trace *)

(** The external commands of a trace: command line, working directory, outcome. *)
Fixpoint runs (evs : list event) : list (list str * PurePath * run_outcome) :=
  match evs with
  | [] => []
  | EvRun cmdline cwd out :: rest => (cmdline, cwd, out) :: runs rest
  | _ :: rest => runs rest
  end.

(** The pieces written to the file [p], in order. *)
Fixpoint written (p : PurePath) (evs : list event) : list str :=
  match evs with
  | [] => []
  | EvWrite q s :: rest =>
      if Path_eqb q p then s :: written p rest else written p rest
  | _ :: rest => written p rest
  end.

(** The files opened for writing, in order. *)
Fixpoint opened (evs : list event) : list PurePath :=
  match evs with
  | [] => []
  | EvOpen p :: rest => p :: opened rest
  | _ :: rest => opened rest
  end.

Definition is_file_event (ev : event) : bool :=
  match ev with
  | EvOpen _ | EvWrite _ _ | EvClose _ => true
  | _ => false
  end.

(** The run failed: [subprocess.run] raised, or the command exited nonzero. *)
Definition run_failed (out : run_outcome) : bool :=
  match out with
  | RunRaised _ => true
  | RunExited rc _ => negb (rc =? 0)%Z
  end.

(** The exception a failed run raises in [_submit]. *)
Definition run_exception (cmdline : list str) (out : run_outcome) : exn :=
  match out with
  | RunRaised msg => RunError msg
  | RunExited rc _ => CalledProcessError cmdline rc
  end.

(** A component as parsing leaves it: not empty, not a single dot, without
    a slash. *)
Definition valid_comp (w : str) : Prop := w <> [] /\ w <> [46] /\ ~ In 47 w.

(** The walk of [_path_relative_to_root] passes by the directory [q]: it
    holds no [.git] directory and is not the home directory. *)
Definition passed_by (os : OS) (q : PurePath) : bool :=
  negb (is_dir os (truediv q (lit ".git")))
  && negb (Path_eqb q (Path (home_dir os))).

(** The trace of a run of the generator that returns: for each config, its
    script is opened, written and closed. *)
Inductive generated (os : OS) (ncpus ngpus : Z) (wall_time : str)
  : list str -> list event -> Prop :=
| generated_nil : generated os ncpus ngpus wall_time [] []
| generated_cons (c : str) (rest : list str) (script : PurePath) (jobname : str)
    (evs : list event) :
    with_suffix (Path c) SLURM = Some script ->
    may_open os script = true ->
    _jobname os (Path c) = inr jobname ->
    generated os ncpus ngpus wall_time rest evs ->
    generated os ncpus ngpus wall_time (c :: rest)
      (EvOpen script
         :: map (EvWrite script) (script_pieces jobname wall_time ncpus ngpus (Path c))
         ++ EvClose script :: evs).

(** The job id that [_submit] reads from the outcome of a submission: the
    last whitespace-delimited token of the decoded output of a run that
    exited with status 0; otherwise the exception raised in the [try] block. *)
Definition parse_job_id (cmdline : list str) (out : run_outcome) : exn + str :=
  match out with
  | RunRaised msg => inl (RunError msg)
  | RunExited rc data =>
      if (rc =? 0)%Z then
        match utf8_decode data with
        | None => inl (UnicodeDecodeError data)
        | Some stdout =>
            match last_item (split stdout) with
            | None => inl IndexError
            | Some jobid => inr jobid
            end
        end
      else inl (CalledProcessError cmdline rc)
  end.

(** The lines printed, in order. *)
Fixpoint printed (evs : list event) : list str :=
  match evs with
  | [] => []
  | EvPrint s :: rest => s :: printed rest
  | _ :: rest => printed rest
  end.

(** The trace handles files the way [with] blocks do: a file is opened only
    while none is open, written and closed only while it is the open one,
    and none is left open at the end.  [cur] is the file open at the start. *)
Fixpoint well_bracketed (cur : option PurePath) (evs : list event) : bool :=
  match evs with
  | [] => match cur with None => true | Some _ => false end
  | EvOpen p :: rest =>
      match cur with
      | None => well_bracketed (Some p) rest
      | Some _ => false
      end
  | EvWrite p _ :: rest =>
      match cur with
      | Some q => Path_eqb p q && well_bracketed cur rest
      | None => false
      end
  | EvClose p :: rest =>
      match cur with
      | Some q => Path_eqb p q && well_bracketed None rest
      | None => false
      end
  | _ :: rest => well_bracketed cur rest
  end.


(** How often the character [c] occurs in [s]. *)
Definition occurrences (c : char) (s : str) : nat :=
  List.length (filter (N.eqb c) s).

Arguments occurrences c%_N s.

(** The wall-time formats of the scheduler, for components [d], [h], [m]
    and [s]: minutes, minutes:seconds, hours:minutes:seconds, days-hours,
    days-hours:minutes and days-hours:minutes:seconds. *)
Definition slurm_formats (d h m s : str) : list str :=
  [ m;
    m ++ [58] ++ s;
    h ++ [58] ++ m ++ [58] ++ s;
    d ++ [45] ++ h;
    d ++ [45] ++ h ++ [58] ++ m;
    d ++ [45] ++ h ++ [58] ++ m ++ [58] ++ s ].





(** ** Sample runs *)

Module Sample.

(** A user whose project holds a [.git] directory. *)
Definition os : OS :=
  {| getcwd := lit "/home/user/proj/run1";
     home_dir := lit "/home/user";
     is_dir := fun p => Path_eqb p (Path (lit "/home/user/proj/.git"));
     may_open := fun _ => true |}.

(** A machine whose root directory holds a [.git] directory. *)
Definition os_git_at_root : OS :=
  {| getcwd := lit "/data";
     home_dir := lit "/home/user";
     is_dir := fun p => Path_eqb p (Path (lit "/.git"));
     may_open := fun _ => true |}.

(** A machine without any [.git] directory, used outside the home directory. *)
Definition os_bare : OS :=
  {| getcwd := lit "/scratch";
     home_dir := lit "/home/user";
     is_dir := fun _ => false;
     may_open := fun _ => true |}.

(** The output of the [n]-th submission. *)
Definition submitted (n : nat) : bytes :=
  match n with
  | O => ascii_bytes "Submitted batch job 101" ++ [x0a]
  | S O => ascii_bytes "Submitted batch job 102" ++ [x0a]
  | _ => ascii_bytes "Submitted batch job 103" ++ [x0a]
  end.

(** A scheduler that accepts every job; its state counts the submissions. *)
Definition accepting : scheduler nat :=
  fun n _ _ => (S n, RunExited 0 (submitted n)).

(** A scheduler that refuses the second job. *)
Definition refusing_second : scheduler nat :=
  fun n _ _ =>
    match n with
    | S O => (S n, RunExited 1 [])
    | _ => (S n, RunExited 0 (submitted n))
    end.

(** A scheduler that accepts every job and prints nothing. *)
Definition silent : scheduler nat :=
  fun n _ _ => (S n, RunExited 0 []).

Definition three_configs : list str :=
  [lit "a.conf"; lit "b.conf"; lit "c.conf"].

End Sample.

(** Another scheduler, for the properties beyond the claims. *)
Module Sample2.

(** A scheduler whose output is not UTF-8. *)
Definition garbling : scheduler nat :=
  fun n _ _ => (S n, RunExited 0 [xff; xfe]).

End Sample2.

(** Two concatenations of the same pieces. *)
Ltac same_string :=
  repeat (cbn [app]; rewrite ?app_nil_r, <- ?app_assoc); reflexivity.

(** * Properties *)

(** ** The embedding at work

    The definitions above, run on inputs whose results under Python 3.11
    are known. *)

Example convert_accepts :
  forallb (fun s => match convert ascii_digit (lit s) with
                    | inl v => str_eqb v (lit s)
                    | inr _ => false
                    end)
    ["12:00:00"; "2-04:30"; "45"; "30:15"; ""; "1-2"; "-5"; "1:"; ":5"; "1::2";
     "1-2:3:4"; "12-34:56:78"]%string
  = true.
Proof. reflexivity. Qed.

Example convert_rejects :
  forallb (fun s => match convert ascii_digit (lit s) with
                    | inl _ => false
                    | inr _ => true
                    end)
    [":"; "::"; "1:2:3:4"; "1-2-3"; "5-"; "1-:2"; "a"; "12 "; "--1"; "1:-2";
     "1:2-3"]%string
  = true.
Proof. reflexivity. Qed.

Example convert_final_newline :
  convert ascii_digit (lit "12" ++ NL) = inl (lit "12" ++ NL)
  /\ convert ascii_digit (lit "12" ++ NL ++ NL)
     = inr (BadParameter [FRepr (lit "12" ++ NL ++ NL);
                          FText (lit " is not a valid walltime")]).
Proof. split; reflexivity. Qed.

Example split_tokens :
  split (lit " Submitted batch  job 42" ++ NL)
  = [lit "Submitted"; lit "batch"; lit "job"; lit "42"]
  /\ split (lit "  " ++ NL) = [].
Proof. split; reflexivity. Qed.

Example utf8_decode_strict :
  utf8_decode [xc3; xa9; x41] = Some [233; 65]
  /\ utf8_decode [xf4; x8f; xbf; xbf] = Some [1114111]
  /\ utf8_decode [xed; xa0; x80] = None
  /\ utf8_decode [xc0; x80] = None
  /\ utf8_decode [xc2] = None.
Proof. repeat split. Qed.

Example Path_parts :
  parts (Path (lit "/a/./b/")) = [lit "/"; lit "a"; lit "b"]
  /\ parts (Path (lit "//a")) = [lit "//"; lit "a"]
  /\ parts (Path (lit "///a")) = [lit "/"; lit "a"]
  /\ parts (Path (lit "a/../b")) = [lit "a"; lit ".."; lit "b"]
  /\ parts (Path (lit ".")) = []
  /\ str_of_path (Path (lit "")) = lit ".".
Proof. repeat split. Qed.

Example parents_nearest_first :
  map str_of_path (parents (Path (lit "/a/b/c"))) = [lit "/a/b"; lit "/a"; lit "/"]
  /\ map str_of_path (parents (Path (lit "a/b"))) = [lit "a"; lit "."]
  /\ parents (Path (lit "/")) = [].
Proof. repeat split. Qed.

Example with_suffix_examples :
  map (fun s => option_map str_of_path (with_suffix (Path (lit s)) SLURM))
    ["a.conf"; "a"; ".bashrc"; "a."; "dir/a.tar.gz"; "/"; ""]%string
  = [Some (lit "a.slurm"); Some (lit "a.slurm"); Some (lit ".bashrc.slurm");
     Some (lit "a..slurm"); Some (lit "dir/a.tar.slurm"); None; None].
Proof. reflexivity. Qed.

Example rtruediv_drops_empty_name :
  parts (rtruediv (lit "proj") (Path (lit "run1/input.conf")))
  = [lit "proj"; lit "run1"; lit "input.conf"]
  /\ parts (rtruediv (lit "") (Path (lit "data/x.conf"))) = [lit "data"; lit "x.conf"].
Proof. split; reflexivity. Qed.

Example jobname_relative_to_home :
  _jobname Sample.os (Path (lit "/home/user/other/x.conf")) = inr (lit "other_x.conf")
  /\ _jobname Sample.os (Path (lit "input.conf")) = inr (lit "proj_run1_input.conf").
Proof. split; reflexivity. Qed.

Example script_of_a_conf :
  List.concat (written (Path (lit "a.slurm"))
                 (events (_prep Sample.os [lit "a.conf"] 2 1 (lit "12:00:00") tt)))
  = lit "#!/bin/bash

#SBATCH --job-name=proj_run1_a.conf
#SBATCH --time=12:00:00
#SBATCH --nodes=1
#SBATCH --ntasks-per-node=2
#SBATCH --gpus=1

module purge
module load namd3

namd3 +p 2 +setcpuaffinity +devices ${CUDA_VISIBLE_DEVICES} a.conf > a.out
".
Proof. reflexivity. Qed.

Example script_without_gpus :
  List.concat (written (Path (lit "a.slurm"))
                 (events (_prep Sample.os [lit "a.conf"] 8 0 (lit "2-04:30") tt)))
  = lit "#!/bin/bash

#SBATCH --job-name=proj_run1_a.conf
#SBATCH --time=2-04:30
#SBATCH --nodes=1
#SBATCH --ntasks-per-node=8

module purge
module load namd3

namd3 +p 8 +setcpuaffinity a.conf > a.out
".
Proof. reflexivity. Qed.

Example chained_submissions :
  map (fun run => fst (fst run))
    (runs (events (main Sample.accepting Sample.os (lit "a.conf")
                     [lit "b.conf"; lit "c.conf"] 2 1 (lit "12:00:00") (Some 7%Z)
                     true false 0%nat)))
  = [[lit "sbatch"; lit "a.slurm"; lit "--dependency=afterok:7"];
     [lit "sbatch"; lit "b.slurm"; lit "--dependency=afterok:101"];
     [lit "sbatch"; lit "c.slurm"; lit "--dependency=afterok:102"]].
Proof. reflexivity. Qed.

Example unchained_submissions :
  map (fun run => fst (fst run))
    (runs (events (main Sample.accepting Sample.os (lit "a.conf")
                     [lit "b.conf"; lit "c.conf"] 2 1 (lit "12:00:00") (Some 7%Z)
                     false false 0%nat)))
  = [[lit "sbatch"; lit "a.slurm"; lit "--dependency=afterok:7"];
     [lit "sbatch"; lit "b.slurm"; lit "--dependency=afterok:7"];
     [lit "sbatch"; lit "c.slurm"; lit "--dependency=afterok:7"]].
Proof. reflexivity. Qed.

(** ** Strings and lists *)

Lemma str_eqb_eq (a b : str) : str_eqb a b = true <-> a = b.
Proof.
  revert b; induction a as [|x a IH]; intros [|y b]; simpl; split;
    try congruence; try discriminate; auto.
  - rewrite andb_true_iff, N.eqb_eq, IH. intros [-> ->]; reflexivity.
  - intros H; injection H as -> ->.
    rewrite N.eqb_refl; simpl. apply IH; reflexivity.
Qed.

Lemma str_eqb_refl (a : str) : str_eqb a a = true.
Proof. apply str_eqb_eq; reflexivity. Qed.

Lemma str_eqb_neq (a b : str) : str_eqb a b = false <-> a <> b.
Proof.
  split.
  - intros H E. apply str_eqb_eq in E. congruence.
  - intros H. destruct (str_eqb a b) eqn:E; [|reflexivity].
    apply str_eqb_eq in E. contradiction.
Qed.

(** ** The regular-expression matcher *)

Lemma match_star_spec (cls : char -> bool) (s : str) (k : str -> bool) :
  match_star cls s k = true <->
  exists s1 s2, s = s1 ++ s2 /\ Forall (fun c => cls c = true) s1 /\ k s2 = true.
Proof.
  induction s as [|c s IH]; simpl.
  - split.
    + intros H. exists [], []. auto.
    + intros (s1 & s2 & E & _ & K).
      symmetry in E. apply app_eq_nil in E as [-> ->]. exact K.
  - rewrite orb_true_iff, andb_true_iff, IH. split.
    + intros [[C (s1 & s2 & -> & F & K)] | K].
      * exists (c :: s1), s2. auto.
      * exists [], (c :: s). auto.
    + intros (s1 & s2 & E & F & K). destruct s1 as [|c1 s1].
      * simpl in E. subst s2. right; exact K.
      * simpl in E. injection E as -> ->. inversion F; subst.
        left. split; [assumption|]. exists s1, s2. auto.
Qed.

Lemma match_re_spec (r : regex) :
  forall (s : str) (k : str -> bool),
    match_re r s k = true <->
    exists s1 s2, s = s1 ++ s2 /\ lang r s1 /\ k s2 = true.
Proof.
  induction r as [c | cls | a IHa b IHb | g a IHa | nm a IHa]; intros s k; simpl.
  - destruct s as [|c' s'].
    + split; [discriminate|].
      intros (s1 & s2 & E & -> & _). discriminate.
    + rewrite andb_true_iff, N.eqb_eq. split.
      * intros [-> K]. exists [c], s'. auto.
      * intros (s1 & s2 & E & -> & K). simpl in E. injection E as -> ->. auto.
  - destruct s as [|c s'].
    + split; [discriminate|].
      intros (s1 & s2 & E & [N _] & _).
      symmetry in E. apply app_eq_nil in E as [-> _]. contradiction.
    + rewrite andb_true_iff, match_star_spec. split.
      * intros [C (s1 & s2 & -> & F & K)].
        exists (c :: s1), s2. repeat split; auto. discriminate.
      * intros (s1 & s2 & E & [N F] & K). destruct s1 as [|c1 s1]; [contradiction|].
        simpl in E. injection E as -> ->. inversion F; subst.
        split; [assumption|]. exists s1, s2. auto.
  - rewrite IHa. split.
    + intros (s1 & s2 & -> & La & Kb). apply IHb in Kb as (s3 & s4 & -> & Lb & K).
      exists (s1 ++ s3), s4. rewrite app_assoc. repeat split; auto.
      exists s1, s3. auto.
    + intros (s12 & s4 & -> & (s1 & s3 & -> & La & Lb) & K).
      exists s1, (s3 ++ s4). rewrite app_assoc. repeat split; auto.
      apply IHb. exists s3, s4. auto.
  - assert (H : match_re a s k || k s = true <->
                exists s1 s2, s = s1 ++ s2 /\ (s1 = [] \/ lang a s1) /\ k s2 = true).
    { rewrite orb_true_iff, IHa. split.
      - intros [(s1 & s2 & E & L & K) | K].
        + exists s1, s2. auto.
        + exists [], s. auto.
      - intros (s1 & s2 & E & [-> | L] & K).
        + simpl in E. subst. auto.
        + left. exists s1, s2. auto. }
    destruct g; [exact H | rewrite orb_comm; exact H].
  - apply IHa.
Qed.

(** A string of the language is matched up to the end of the string. *)
Lemma lang_match_re (r : regex) (s : str) :
  lang r s -> match_re r s (fun t => str_eqb t []) = true.
Proof.
  intros L. apply match_re_spec. exists s, []. rewrite app_nil_r. auto.
Qed.

Lemma at_end_spec (s : str) : at_end s = true <-> s = [] \/ s = NL.
Proof.
  unfold NL. destruct s as [|c [|d s]]; simpl.
  - split; auto.
  - rewrite N.eqb_eq. split.
    + intros ->; auto.
    + intros [H | H]; [discriminate | congruence].
  - split; [discriminate|]. intros [H | H]; discriminate.
Qed.

Lemma last_item_app {A : Type} (l : list A) (x : A) : last_item (l ++ [x]) = Some x.
Proof.
  induction l as [|y l IH]; [reflexivity|].
  simpl. destruct (l ++ [x]) eqn:E; [|exact IH].
  destruct l; discriminate.
Qed.

Lemma ends_with_newline_app (s : str) : ends_with_newline (s ++ NL) = true.
Proof. unfold ends_with_newline, NL. rewrite last_item_app. reflexivity. Qed.

(** ** The wall-time validator *)

Section WallTimeProperties.

Variable is_decimal : char -> bool.

Lemma lang_walltime_pattern (v : str) :
  lang (walltime_pattern is_decimal) v <-> walltime_shape is_decimal v.
Proof.
  unfold walltime_shape, hours_part, seconds_part, digits. simpl. split.
  - intros (d & r1 & -> & Hd & h & r2 & -> & Hh & m & s & -> & Hm & Hs).
    exists d, h, m, s. repeat split; auto.
    + destruct Hh as [-> | (a & b & -> & Ha & hh & c & -> & Hhh & Hc)]; [auto|].
      right. exists hh. split; [exact Hhh|].
      destruct Ha as [-> | ->], Hc as [-> | ->]; simpl; rewrite ?app_nil_r; auto.
    + destruct Hs as [-> | (a & b & -> & -> & Hb)]; [auto|].
      right. exists b. auto.
  - intros (d & h & m & s & -> & Hd & Hh & Hm & Hs).
    exists d, (h ++ m ++ s). repeat split; auto.
    exists h, (m ++ s). repeat split; auto.
    + destruct Hh as [-> | (hh & Hhh & E)]; [auto|]. right.
      destruct E as [-> | [-> | [-> | ->]]].
      * exists [], hh. repeat split; auto. exists hh, []. rewrite app_nil_r. auto.
      * exists [45], hh. repeat split; auto. exists hh, []. rewrite app_nil_r. auto.
      * exists [], (hh ++ [58]). repeat split; auto. exists hh, [58]. auto.
      * exists [45], (hh ++ [58]). repeat split; auto. exists hh, [58]. auto.
    + exists m, s. repeat split; auto.
      destruct Hs as [-> | (dd & Hdd & ->)]; [auto|]. right.
      exists [58], dd. auto.
Qed.

(** Away from a final newline, the pattern matches exactly the strings of
    its language. *)
Lemma re_match_walltime (v : str) :
  ends_with_newline v = false ->
  (re_match (walltime_pattern is_decimal) v = true <-> walltime_shape is_decimal v).
Proof.
  intros NoNL. unfold re_match. rewrite match_re_spec, <- lang_walltime_pattern. split.
  - intros (s1 & s2 & -> & L & K). apply at_end_spec in K as [-> | ->].
    + rewrite app_nil_r. exact L.
    + rewrite ends_with_newline_app in NoNL. discriminate.
  - intros L. exists v, []. rewrite app_nil_r. auto.
Qed.

Lemma Forall_app_walltime_char (a b : str) :
  Forall (fun c => walltime_char is_decimal c = true) a ->
  Forall (fun c => walltime_char is_decimal c = true) b ->
  Forall (fun c => walltime_char is_decimal c = true) (a ++ b).
Proof. intros; apply Forall_app; auto. Qed.

Lemma digits_walltime_chars (s : str) :
  s = [] \/ digits is_decimal s ->
  Forall (fun c => walltime_char is_decimal c = true) s.
Proof.
  intros [-> | [_ F]]; [constructor|].
  eapply Forall_impl; [|exact F]. intros c H. unfold walltime_char. rewrite H. reflexivity.
Qed.

(** A string of the shape holds digits, colons and hyphens only. *)
Lemma walltime_shape_chars (v : str) :
  walltime_shape is_decimal v ->
  Forall (fun c => walltime_char is_decimal c = true) v.
Proof.
  assert (colon : walltime_char is_decimal 58 = true)
    by (unfold walltime_char; destruct (is_decimal 58); reflexivity).
  assert (hyphen : walltime_char is_decimal 45 = true)
    by (unfold walltime_char; destruct (is_decimal 45); reflexivity).
  intros (d & h & m & s & -> & Hd & Hh & Hm & Hs).
  repeat apply Forall_app_walltime_char; try (apply digits_walltime_chars; assumption).
  - destruct Hh as [-> | (hh & Hhh & E)]; [constructor|].
    pose proof (digits_walltime_chars hh (or_intror Hhh)) as F.
    destruct E as [-> | [-> | [-> | ->]]]; auto.
    + apply Forall_app_walltime_char; auto.
    + constructor; auto. apply Forall_app_walltime_char; auto.
  - destruct Hs as [-> | (dd & Hdd & ->)]; [constructor|].
    constructor; auto. apply digits_walltime_chars; auto.
Qed.

(** C4 (amended): for every string that does not end in a newline, the
    validator accepts, returning the string unchanged, exactly when the
    string has the shape [[days][[-]hours[:]][minutes][:seconds]], every
    component being one or more digits when it is present (the hyphen before
    the hours and the colon after them are each optional).  Every other such
    string, in particular every one that holds a character other than a
    digit, a colon or a hyphen, is refused with an error whose message
    carries the value.  The empty string is accepted. *)
Theorem walltime_validator (v : str) :
  ends_with_newline v = false ->
  (convert is_decimal v = inl v <-> walltime_shape is_decimal v)
  /\ (~ walltime_shape is_decimal v ->
      convert is_decimal v
      = inr (BadParameter [FRepr v; FText (lit " is not a valid walltime")]))
  /\ (existsb (fun c => negb (walltime_char is_decimal c)) v = true ->
      convert is_decimal v
      = inr (BadParameter [FRepr v; FText (lit " is not a valid walltime")]))
  /\ convert is_decimal [] = inl [].
Proof.
  intros NoNL. pose proof (re_match_walltime v NoNL) as M.
  assert (R : ~ walltime_shape is_decimal v ->
              convert is_decimal v
              = inr (BadParameter [FRepr v; FText (lit " is not a valid walltime")])).
  { intros N. unfold convert.
    destruct (re_match (walltime_pattern is_decimal) v); [|reflexivity].
    exfalso. apply N, M. reflexivity. }
  repeat split.
  - unfold convert. destruct (re_match (walltime_pattern is_decimal) v).
    + intros _. apply M. reflexivity.
    + discriminate.
  - intros S. unfold convert. apply M in S. rewrite S. reflexivity.
  - exact R.
  - intros E. apply R. intros S. apply walltime_shape_chars in S.
    apply existsb_exists in E as (c & In_c & Bad).
    rewrite Forall_forall in S. rewrite (S c In_c) in Bad. discriminate.
Qed.

End WallTimeProperties.

(** ["2-04:30"] is accepted: two days, four hours and thirty minutes. *)
Lemma walltime_validator_witness :
  ends_with_newline (lit "2-04:30") = false
  /\ convert ascii_digit (lit "2-04:30") = inl (lit "2-04:30").
Proof.
  split; [reflexivity|].
  apply (walltime_validator ascii_digit (lit "2-04:30") eq_refl).
  exists (lit "2"), (lit "-04:"), (lit "30"), [].
  repeat split.
  - right. split; [discriminate | repeat constructor].
  - right. exists (lit "04"). split.
    + split; [discriminate | repeat constructor].
    + right; right; right. reflexivity.
  - right. split; [discriminate | repeat constructor].
  - left. reflexivity.
Defined.

(** C4 as stated fails: ["1-2"] (one day and two hours) is accepted although
    the grammar of the specification wants a colon after the hours, and
    ["12"] followed by a newline is accepted although the newline is neither
    a digit, a colon nor a hyphen. *)
Lemma walltime_validator_counterexample :
  convert ascii_digit (lit "1-2") = inl (lit "1-2")
  /\ ~ lang (spec_grammar ascii_digit) (lit "1-2")
  /\ convert ascii_digit (lit "12" ++ NL) = inl (lit "12" ++ NL)
  /\ existsb (fun c => negb (walltime_char ascii_digit c)) (lit "12" ++ NL) = true.
Proof.
  repeat split.
  intros L. apply lang_match_re in L. vm_compute in L. discriminate.
Qed.

(** ** Paths *)

Lemma Path_eqb_eq (p q : PurePath) : Path_eqb p q = true <-> p = q.
Proof.
  destruct p as [rp cp], q as [rq cq]. unfold Path_eqb; simpl.
  rewrite andb_true_iff, str_eqb_eq.
  assert (H : forall a b,
             (fix eqb (a b : list str) : bool :=
                match a, b with
                | [], [] => true
                | x :: a', y :: b' => str_eqb x y && eqb a' b'
                | _, _ => false
                end) a b = true <-> a = b).
  { induction a as [|x a IH]; intros [|y b]; split; try congruence; try discriminate; auto.
    - rewrite andb_true_iff, str_eqb_eq, IH. intros [-> ->]; reflexivity.
    - intros E; injection E as -> ->. rewrite str_eqb_refl. simpl. apply IH; reflexivity. }
  rewrite H. split.
  - intros [-> ->]; reflexivity.
  - intros E; injection E as -> ->; auto.
Qed.

Lemma Path_eqb_refl (p : PurePath) : Path_eqb p p = true.
Proof. apply Path_eqb_eq; reflexivity. Qed.

Lemma split_on_pieces (sep : char) (s : str) :
  Forall (fun w => ~ In sep w) (split_on sep s).
Proof.
  induction s as [|c s IH]; simpl.
  - constructor; [intros []|constructor].
  - destruct (N.eqb_spec c sep) as [->|Hc].
    + constructor; [intros []|exact IH].
    + destruct (split_on sep s) as [|w ws].
      * constructor; [|constructor]. intros [E|[]]. congruence.
      * inversion IH; subst. constructor; [|assumption].
        intros [E|I]; [congruence|contradiction].
Qed.

Lemma split_on_one (sep : char) (w : str) :
  ~ In sep w -> split_on sep w = [w].
Proof.
  induction w as [|c w IH]; simpl; intros H; [reflexivity|].
  destruct (N.eqb_spec c sep) as [->|Hc].
  - exfalso. apply H. left; reflexivity.
  - rewrite IH; [reflexivity|]. intros I. apply H. right; exact I.
Qed.

Lemma dropped_false (w : str) : dropped w = false <-> w <> [] /\ w <> [46].
Proof.
  unfold dropped. rewrite orb_false_iff, !str_eqb_neq. reflexivity.
Qed.

Lemma Path_comps_valid (s : str) : Forall valid_comp (comps (Path s)).
Proof.
  unfold Path; simpl. apply Forall_forall. intros w Hw.
  apply filter_In in Hw as [Hin Hd].
  apply negb_true_iff, dropped_false in Hd as [H1 H2].
  pose proof (split_on_pieces 47 s) as F. rewrite Forall_forall in F.
  repeat split; auto.
Qed.

(** A valid component parses to itself. *)
Lemma Path_valid_comp (w : str) : valid_comp w -> Path w = mkPath [] [w].
Proof.
  intros (H1 & H2 & H3). unfold Path. f_equal.
  - destruct w as [|c w]; [contradiction|].
    destruct (N.eqb_spec c 47) as [->|Hc].
    + exfalso. apply H3. left; reflexivity.
    + unfold posix_root.
      destruct c as [|p]; [reflexivity|].
      do 6 (destruct p as [p|p|]; try reflexivity).
      exfalso. apply Hc. reflexivity.
  - rewrite split_on_one by exact H3. simpl.
    assert (D : dropped w = false) by (apply dropped_false; auto).
    rewrite D. reflexivity.
Qed.

Lemma proper_prefixes_spec {A : Type} (l pre : list A) :
  In pre (proper_prefixes l) -> exists rest, rest <> [] /\ l = pre ++ rest.
Proof.
  revert pre; induction l as [|x l IH]; simpl; intros pre H; [contradiction|].
  destruct H as [<-|H].
  - exists (x :: l). split; [discriminate|reflexivity].
  - apply in_map_iff in H as (pre' & <- & H). apply IH in H as (rest & N & ->).
    exists rest. auto.
Qed.

Lemma strip_prefix_app (pre rest : list str) :
  strip_prefix pre (pre ++ rest) = Some rest.
Proof.
  induction pre as [|x pre IH]; simpl; [destruct rest; reflexivity|].
  rewrite str_eqb_refl. exact IH.
Qed.

(** An ancestor of a path: same root, and the components are a proper prefix. *)
Lemma parents_spec (path p : PurePath) :
  In p (parents path) ->
  exists rest, rest <> [] /\ root p = root path /\ comps path = comps p ++ rest.
Proof.
  unfold parents. intros H. apply in_map_iff in H as (pre & <- & H).
  apply in_rev, proper_prefixes_spec in H as (rest & N & E).
  exists rest. auto.
Qed.

Lemma relative_to_parent (path p : PurePath) (rest : list str) :
  root p = root path -> comps path = comps p ++ rest ->
  relative_to path p = Some (mkPath [] rest).
Proof.
  intros R C. unfold relative_to. rewrite R, str_eqb_refl, C, strip_prefix_app.
  reflexivity.
Qed.

Lemma last_In {A : Type} (l : list A) (d : A) : l <> [] -> In (last l d) l.
Proof.
  induction l as [|x [|y l] IH]; intros N; [contradiction|left; reflexivity|].
  right. apply IH. discriminate.
Qed.

(** The name of a path with valid components is a valid component, or empty. *)
Lemma name_valid (p : PurePath) :
  Forall valid_comp (comps p) -> name p = [] \/ valid_comp (name p).
Proof.
  intros F. unfold name. destruct (comps p) as [|x l] eqn:E; [left; reflexivity|].
  right. rewrite Forall_forall in F. apply F. apply last_In. discriminate.
Qed.

(** [name / rel]: the name in front of the components, unless it is empty. *)
Lemma parts_rtruediv (nm : str) (rest : list str) :
  nm = [] \/ valid_comp nm ->
  parts (rtruediv nm (mkPath [] rest))
  = match nm with [] => rest | _ => nm :: rest end.
Proof.
  intros [-> | V]; [reflexivity|].
  unfold rtruediv. rewrite (Path_valid_comp nm V). unfold join_paths, parts; simpl.
  destruct nm; [destruct V as [V _]; contradiction | reflexivity].
Qed.

Section JobName.

Variable os : OS.

Lemma walk_up_passed (path : PurePath) (passed ps : list PurePath) :
  forallb (passed_by os) passed = true ->
  walk_up os path (Path (home_dir os)) (passed ++ ps)
  = walk_up os path (Path (home_dir os)) ps.
Proof.
  induction passed as [|q passed IH]; cbn [app forallb walk_up]; intros H;
    [reflexivity|].
  apply andb_true_iff in H as [Hq H]. unfold passed_by in Hq.
  apply andb_true_iff in Hq as [G Hm]. apply negb_true_iff in G, Hm.
  rewrite G, Hm. apply IH, H.
Qed.

Lemma absolute_comps_valid (c : str) :
  Forall valid_comp (comps (absolute os (Path c))).
Proof.
  unfold absolute, join_paths. destruct (is_absolute (Path c)).
  - apply Path_comps_valid.
  - cbn [comps]. apply Forall_app. split; apply Path_comps_valid.
Qed.

Lemma walk_up_found (path p : PurePath) (passed later : list PurePath)
    (rest : list str) :
  forallb (passed_by os) passed = true ->
  is_dir os (truediv p (lit ".git")) = true ->
  relative_to path p = Some (mkPath [] rest) ->
  walk_up os path (Path (home_dir os)) (passed ++ p :: later)
  = inr (Some (rtruediv (name p) (mkPath [] rest))).
Proof.
  intros Hpassed Hgit Hrel. rewrite walk_up_passed by exact Hpassed.
  cbn [walk_up]. rewrite Hgit, Hrel. reflexivity.
Qed.

Lemma walk_up_nothing (path : PurePath) (ps : list PurePath) :
  forallb (passed_by os) ps = true ->
  walk_up os path (Path (home_dir os)) ps = inr None.
Proof.
  intros H. rewrite <- (app_nil_r ps). rewrite walk_up_passed by exact H.
  reflexivity.
Qed.

(** C3 (amended): when the nearest ancestor [p] of the absolute path that
    holds a [.git] directory is reached, walking upward, no later than the
    home directory, the job name is the name of [p] and the components of
    the path relative to [p], joined by underscores, provided [p] has a name;
    when [p] is the root of the file system, whose name is empty, the job
    name is the relative components alone, joined by underscores. *)
Theorem jobname_below_git (c : str) (i : nat) (p : PurePath) :
  nth_error (parents (absolute os (Path c))) i = Some p ->
  forallb (passed_by os) (firstn i (parents (absolute os (Path c)))) = true ->
  is_dir os (truediv p (lit ".git")) = true ->
  exists rel,
    relative_to (absolute os (Path c)) p = Some rel
    /\ (name p <> [] ->
        _jobname os (Path c) = inr (join (lit "_") (name p :: comps rel)))
    /\ (name p = [] ->
        _jobname os (Path c) = inr (join (lit "_") (comps rel))).
Proof.
  intros Hnth Hpassed Hgit.
  pose proof (absolute_comps_valid c) as Valid.
  set (path := absolute os (Path c)) in *.
  destruct (nth_error_split _ _ Hnth) as (passed & later & Eps & Elen).
  assert (Efirst : firstn i (parents path) = passed).
  { rewrite Eps, <- Elen, firstn_app, Nat.sub_diag, firstn_all. simpl.
    apply app_nil_r. }
  rewrite Efirst in Hpassed.
  destruct (parents_spec path p (nth_error_In _ _ Hnth)) as (rest & _ & Hroot & Hcomps).
  pose proof (relative_to_parent path p rest Hroot Hcomps) as Hrel.
  assert (Vp : name p = [] \/ valid_comp (name p)).
  { apply name_valid. rewrite Hcomps in Valid. apply Forall_app in Valid. tauto. }
  assert (J : _jobname os (Path c)
              = inr (join (lit "_")
                       match name p with [] => rest | _ => name p :: rest end)).
  { unfold _jobname, _path_relative_to_root. fold path. rewrite Eps.
    rewrite (walk_up_found path p passed later rest Hpassed Hgit Hrel).
    rewrite parts_rtruediv by exact Vp. reflexivity. }
  exists (mkPath [] rest). split; [exact Hrel|]. cbn [comps]. split.
  - intros N. rewrite J. destruct (name p); [contradiction | reflexivity].
  - intros E. rewrite J, E. reflexivity.
Qed.

(** When the home directory [p] is reached, walking upward from the
    absolute path, before any directory that holds a [.git] directory, and
    holds none itself, the job name is the components of the path relative
    to the home directory, joined by underscores. *)
Theorem jobname_below_home (c : str) (i : nat) (p : PurePath) :
  nth_error (parents (absolute os (Path c))) i = Some p ->
  forallb (passed_by os) (firstn i (parents (absolute os (Path c)))) = true ->
  is_dir os (truediv p (lit ".git")) = false ->
  p = Path (home_dir os) ->
  exists rel,
    relative_to (absolute os (Path c)) p = Some rel
    /\ _jobname os (Path c) = inr (join (lit "_") (comps rel)).
Proof.
  intros Hnth Hpassed Hgit Hhome.
  set (path := absolute os (Path c)) in *.
  destruct (nth_error_split _ _ Hnth) as (passed & later & Eps & Elen).
  assert (Efirst : firstn i (parents path) = passed).
  { rewrite Eps, <- Elen, firstn_app, Nat.sub_diag, firstn_all. simpl.
    apply app_nil_r. }
  rewrite Efirst in Hpassed.
  destruct (parents_spec path p (nth_error_In _ _ Hnth)) as (rest & _ & Hroot & Hcomps).
  pose proof (relative_to_parent path p rest Hroot Hcomps) as Hrel.
  exists (mkPath [] rest). split; [exact Hrel|].
  unfold _jobname, _path_relative_to_root. fold path. rewrite Eps.
  rewrite walk_up_passed by exact Hpassed. cbn [walk_up].
  rewrite Hgit, Hrel. rewrite <- Hhome, Path_eqb_refl. reflexivity.
Qed.

(** The first two parts of C8: without a [.git] directory in any ancestor
    and without the home directory among the ancestors, the walk returns
    [None] and the job name raises. *)
Lemma jobname_nowhere (c : str) :
  forallb (passed_by os) (parents (absolute os (Path c))) = true ->
  _path_relative_to_root os (Path c) = inr None
  /\ _jobname os (Path c) = inl AttributeError_None_parts.
Proof.
  intros H.
  assert (E : _path_relative_to_root os (Path c) = inr None)
    by (unfold _path_relative_to_root; apply walk_up_nothing, H).
  split; [exact E|]. unfold _jobname. rewrite E. reflexivity.
Qed.

End JobName.

(** The example of the specification: with a [.git] directory in
    [/home/user/proj] and the home directory [/home/user], the job name of
    [/home/user/proj/run1/input.conf] is [proj_run1_input.conf]. *)
Lemma jobname_below_git_witness :
  _jobname Sample.os (Path (lit "/home/user/proj/run1/input.conf"))
  = inr (lit "proj_run1_input.conf").
Proof.
  destruct (jobname_below_git Sample.os (lit "/home/user/proj/run1/input.conf") 1
              (Path (lit "/home/user/proj")) eq_refl eq_refl eq_refl)
    as (rel & Hrel & Hname & _).
  vm_compute in Hrel. injection Hrel as <-.
  apply Hname. discriminate.
Defined.

(** C3 as stated fails when the directory that holds [.git] is the root of
    the file system: its name is empty, and the job name of [/data/x.conf]
    is [data_x.conf], while the empty name joined by underscores with the
    relative components would give [_data_x.conf]. *)
Lemma jobname_below_git_counterexample :
  nth_error (parents (absolute Sample.os_git_at_root (Path (lit "/data/x.conf")))) 1
  = Some (Path (lit "/"))
  /\ forallb (passed_by Sample.os_git_at_root)
       (firstn 1 (parents (absolute Sample.os_git_at_root (Path (lit "/data/x.conf")))))
     = true
  /\ is_dir Sample.os_git_at_root (truediv (Path (lit "/")) (lit ".git")) = true
  /\ relative_to (absolute Sample.os_git_at_root (Path (lit "/data/x.conf")))
       (Path (lit "/"))
     = Some (Path (lit "data/x.conf"))
  /\ join (lit "_") (name (Path (lit "/")) :: comps (Path (lit "data/x.conf")))
     = lit "_data_x.conf"
  /\ _jobname Sample.os_git_at_root (Path (lit "/data/x.conf"))
     = inr (lit "data_x.conf").
Proof. repeat split. Qed.

(** ** Suffixes *)

Lemma rfind_dot_app (a b : str) :
  rfind_dot (a ++ b)
  = match rfind_dot b with
    | Some j => Some (List.length a + j)%nat
    | None => rfind_dot a
    end.
Proof.
  induction a as [|c a IH]; cbn [app rfind_dot List.length].
  - destruct (rfind_dot b); reflexivity.
  - rewrite IH. destruct (rfind_dot b); reflexivity.
Qed.

Lemma suffix_start_slurm (a : str) :
  a <> [] -> suffix_start (a ++ SLURM) = Some (List.length a).
Proof.
  intros N. unfold suffix_start. rewrite rfind_dot_app.
  change (rfind_dot SLURM) with (Some 0%nat). cbv beta iota.
  rewrite Nat.add_0_r, length_app.
  change (List.length SLURM) with 6%nat.
  destruct a as [|c a]; [contradiction|]. cbn [List.length].
  replace (0 <? S (List.length a))%nat with true by (symmetry; apply Nat.ltb_lt; lia).
  replace (S (List.length a) <? S (List.length a) + 6 - 1)%nat with true
    by (symmetry; apply Nat.ltb_lt; lia).
  reflexivity.
Qed.

Lemma stem_nonempty (p : PurePath) : name p <> [] -> stem p <> [].
Proof.
  intros N. unfold stem, suffix_start.
  destruct (rfind_dot (name p)) as [i|]; [|exact N].
  destruct (0 <? i)%nat eqn:Pos; [|exact N].
  destruct (i <? List.length (name p) - 1)%nat; [|exact N].
  apply Nat.ltb_lt in Pos. destruct i; [lia|].
  destruct (name p); [contradiction | discriminate].
Qed.

Lemma firstn_app_exact {A : Type} (a b : list A) : firstn (List.length a) (a ++ b) = a.
Proof.
  rewrite firstn_app, Nat.sub_diag, firstn_all. simpl. apply app_nil_r.
Qed.

Lemma skipn_app_exact {A : Type} (a b : list A) : skipn (List.length a) (a ++ b) = b.
Proof.
  rewrite skipn_app, Nat.sub_diag, skipn_all. reflexivity.
Qed.

(** What [with_suffix(".slurm")] returns: the same directory, the same stem,
    and the suffix [.slurm]. *)
Lemma with_suffix_slurm (p script : PurePath) :
  with_suffix p SLURM = Some script ->
  script = mkPath (root p) (removelast (comps p) ++ [stem p ++ SLURM])
  /\ parent script = parent p
  /\ name script = stem p ++ SLURM
  /\ stem script = stem p
  /\ suffix script = SLURM.
Proof.
  unfold with_suffix. destruct (name p) as [|c nm] eqn:N; [discriminate|].
  intros E; injection E as <-.
  assert (Nm : name (mkPath (root p) (removelast (comps p) ++ [stem p ++ SLURM]))
               = stem p ++ SLURM)
    by (unfold name; cbn [comps]; apply last_last).
  assert (St : stem p <> []) by (apply stem_nonempty; rewrite N; discriminate).
  repeat split.
  - unfold parent. cbn [root comps]. rewrite removelast_last. reflexivity.
  - exact Nm.
  - unfold stem at 1. rewrite Nm, suffix_start_slurm by exact St.
    apply firstn_app_exact.
  - unfold suffix. rewrite Nm, suffix_start_slurm by exact St. apply skipn_app_exact.
Qed.

(** A script is determined by its directory and its stem. *)
Lemma script_unique (p p' script script' : PurePath) :
  with_suffix p SLURM = Some script ->
  with_suffix p' SLURM = Some script' ->
  parent script' = parent p -> stem script' = stem p ->
  script' = script.
Proof.
  intros W W' Par St.
  destruct (with_suffix_slurm p script W) as (E & _).
  destruct (with_suffix_slurm p' script' W') as (E' & Par' & _ & St' & _).
  rewrite Par' in Par. rewrite St' in St.
  unfold parent in Par. injection Par as R C.
  rewrite E, E', R, C, St. reflexivity.
Qed.

(** ** The script generator *)

Lemma Forall2_In_left {A B : Type} (R : A -> B -> Prop) (l : list A)
    (l' : list B) (a : A) :
  Forall2 R l l' -> In a l -> exists b, In b l' /\ R a b.
Proof.
  induction 1 as [|x y l l' Rxy F IH]; [intros []|].
  intros [<-|I].
  - exists y. split; [left; reflexivity | exact Rxy].
  - destruct (IH I) as (b & Ib & Rab). exists b. split; [right|]; assumption.
Qed.

Lemma Forall2_In_right {A B : Type} (R : A -> B -> Prop) (l : list A)
    (l' : list B) (b : B) :
  Forall2 R l l' -> In b l' -> exists a, In a l /\ R a b.
Proof.
  induction 1 as [|x y l l' Rxy F IH]; [intros []|].
  intros [<-|I].
  - exists x. split; [left; reflexivity | exact Rxy].
  - destruct (IH I) as (a & Ia & Rab). exists a. split; [right|]; assumption.
Qed.


Section Generator.

Variable World : Type.
Variable os : OS.

Lemma writelines_events (p : PurePath) (lines : list str) (w : World) :
  writelines p lines w = mkRan (map (EvWrite p) lines) w (Return tt).
Proof.
  induction lines as [|l lines IH]; [reflexivity|].
  cbn [writelines map]. unfold bind. cbn. rewrite IH. reflexivity.
Qed.

Lemma write_script_ok (path script : PurePath) (ncpus ngpus : Z)
    (wall_time jobname : str) (w : World) :
  _jobname os path = inr jobname ->
  write_script os path script ncpus ngpus wall_time w
  = mkRan (map (EvWrite script) (script_pieces jobname wall_time ncpus ngpus path))
      w (Return tt).
Proof.
  intros J. unfold write_script, script_pieces. rewrite J.
  destruct (0 <? ngpus)%Z; reflexivity.
Qed.

Lemma write_script_raises (path script : PurePath) (ncpus ngpus : Z)
    (wall_time : str) (e : exn) (w : World) :
  _jobname os path = inl e ->
  write_script os path script ncpus ngpus wall_time w = mkRan [] w (Raise e).
Proof. intros J. unfold write_script. rewrite J. reflexivity. Qed.

(** One turn of the loop of [_prep]. *)
Lemma _prep_cons (c : str) (rest : list str) (ncpus ngpus : Z)
    (wall_time : str) (w : World) :
  _prep os (c :: rest) ncpus ngpus wall_time w
  = match with_suffix (Path c) SLURM with
    | None => mkRan [] w (Raise (ValueError_empty_name (Path c)))
    | Some script =>
        if may_open os script then
          match _jobname os (Path c) with
          | inl e => mkRan [EvOpen script; EvClose script] w (Raise e)
          | inr jobname =>
              let r := _prep os rest ncpus ngpus wall_time w in
              mkRan (EvOpen script
                       :: map (EvWrite script)
                            (script_pieces jobname wall_time ncpus ngpus (Path c))
                       ++ EvClose script :: events r)
                (final r) (result r)
          end
        else mkRan [] w (Raise (OSError_open script))
    end.
Proof.
  cbn [_prep]. destruct (with_suffix (Path c) SLURM) as [script|]; [|reflexivity].
  unfold or_raise, bind at 1. cbn [ret result final events app].
  unfold bind, with_open. destruct (may_open os script); [|reflexivity].
  destruct (_jobname os (Path c)) as [e|jobname] eqn:J.
  - rewrite (write_script_raises _ _ _ _ _ e w J). reflexivity.
  - rewrite (write_script_ok _ _ _ _ _ jobname w J). cbn.
    rewrite <- app_assoc. reflexivity.
Qed.

(** The generator leaves the world as it found it. *)
Lemma _prep_final (configs : list str) (ncpus ngpus : Z) (wall_time : str)
    (w : World) :
  final (_prep os configs ncpus ngpus wall_time w) = w.
Proof.
  induction configs as [|c rest IH]; [reflexivity|].
  rewrite _prep_cons. destruct (with_suffix (Path c) SLURM) as [script|]; [|reflexivity].
  destruct (may_open os script); [|reflexivity].
  destruct (_jobname os (Path c)); [reflexivity | exact IH].
Qed.

(** The generator only opens, writes and closes files. *)
Lemma _prep_file_events (configs : list str) (ncpus ngpus : Z) (wall_time : str)
    (w : World) :
  forallb is_file_event (events (_prep os configs ncpus ngpus wall_time w)) = true.
Proof.
  induction configs as [|c rest IH]; [reflexivity|].
  rewrite _prep_cons. destruct (with_suffix (Path c) SLURM) as [script|]; [|reflexivity].
  destruct (may_open os script); [|reflexivity].
  destruct (_jobname os (Path c)); [reflexivity|].
  cbn [events forallb is_file_event andb]. rewrite forallb_app.
  cbn [forallb is_file_event andb]. rewrite IH, andb_true_r.
  apply forallb_forall. intros ev H. apply in_map_iff in H as (piece & <- & _).
  reflexivity.
Qed.

(** The generator never exits through [sys.exit]. *)
Lemma _prep_no_exit (configs : list str) (ncpus ngpus : Z) (wall_time : str)
    (w : World) (e : exn) :
  result (_prep os configs ncpus ngpus wall_time w) <> SysExit e.
Proof.
  induction configs as [|c rest IH]; [discriminate|].
  rewrite _prep_cons. destruct (with_suffix (Path c) SLURM) as [script|]; [|discriminate].
  destruct (may_open os script); [|discriminate].
  destruct (_jobname os (Path c)); [discriminate | exact IH].
Qed.

(** Configs processed after configs that went through. *)
Lemma _prep_app (pre rest : list str) (ncpus ngpus : Z) (wall_time : str)
    (w : World) :
  result (_prep os pre ncpus ngpus wall_time w) = Return tt ->
  events (_prep os (pre ++ rest) ncpus ngpus wall_time w)
  = events (_prep os pre ncpus ngpus wall_time w)
    ++ events (_prep os rest ncpus ngpus wall_time w)
  /\ result (_prep os (pre ++ rest) ncpus ngpus wall_time w)
     = result (_prep os rest ncpus ngpus wall_time w).
Proof.
  induction pre as [|c pre IH]; [intros _; split; reflexivity|].
  cbn [app]. rewrite !_prep_cons.
  destruct (with_suffix (Path c) SLURM) as [script|]; [|discriminate].
  destruct (may_open os script); [|discriminate].
  destruct (_jobname os (Path c)); [discriminate|].
  cbn [events result]. intros H. destruct (IH H) as [E R]. split; [|exact R].
  rewrite E. cbn [app]. f_equal. rewrite <- !app_assoc. reflexivity.
Qed.

(** What a run of the generator that returns has done. *)
Lemma _prep_generated (configs : list str) (ncpus ngpus : Z) (wall_time : str)
    (w : World) :
  result (_prep os configs ncpus ngpus wall_time w) = Return tt ->
  generated os ncpus ngpus wall_time configs
    (events (_prep os configs ncpus ngpus wall_time w)).
Proof.
  induction configs as [|c rest IH]; [intros _; constructor|].
  rewrite _prep_cons.
  destruct (with_suffix (Path c) SLURM) as [script|] eqn:W; [|discriminate].
  destruct (may_open os script) eqn:O; [|discriminate].
  destruct (_jobname os (Path c)) as [e|jobname] eqn:J; [discriminate|].
  cbn [events result]. intros R. econstructor; eauto.
Qed.

Lemma written_app (p : PurePath) (a b : list event) :
  written p (a ++ b) = written p a ++ written p b.
Proof.
  induction a as [|ev a IH]; [reflexivity|].
  destruct ev; cbn [app written]; try exact IH.
  destruct (Path_eqb p0 p); [cbn [app]; f_equal|]; exact IH.
Qed.

Lemma written_same (p : PurePath) (pieces : list str) :
  written p (map (EvWrite p) pieces) = pieces.
Proof.
  induction pieces as [|x pieces IH]; [reflexivity|].
  cbn [map written]. rewrite Path_eqb_refl, IH. reflexivity.
Qed.

Lemma generated_opened (ncpus ngpus : Z) (wall_time : str) (configs : list str)
    (evs : list event) :
  generated os ncpus ngpus wall_time configs evs ->
  Forall2 (fun c script => with_suffix (Path c) SLURM = Some script)
    configs (opened evs).
Proof.
  induction 1 as [|c rest script jobname evs W O J G IH]; [constructor|].
  cbn [opened]. constructor; [exact W|].
  assert (E : forall pieces tail,
             opened (map (EvWrite script) pieces ++ EvClose script :: tail)
             = opened tail).
  { induction pieces as [|x pieces IHp]; intros tail; [reflexivity|]. apply IHp. }
  rewrite E. exact IH.
Qed.

(** C8: when no ancestor of the absolute path holds a [.git] directory and
    none is the home directory, [_path_relative_to_root] returns [None] and
    [_jobname] raises; the generator, having gone through the configs before
    this one, raises at this one, and has at most created its script empty:
    nothing is written to it. *)
Theorem jobname_none_aborts (c : str) (before rest : list str)
    (ncpus ngpus : Z) (wall_time : str) (w : World) :
  forallb (passed_by os) (parents (absolute os (Path c))) = true ->
  result (_prep os before ncpus ngpus wall_time w) = Return tt ->
  _path_relative_to_root os (Path c) = inr None
  /\ _jobname os (Path c) = inl AttributeError_None_parts
  /\ exists e evs,
       result (_prep os (before ++ c :: rest) ncpus ngpus wall_time w) = Raise e
       /\ events (_prep os (before ++ c :: rest) ncpus ngpus wall_time w)
          = events (_prep os before ncpus ngpus wall_time w) ++ evs
       /\ (evs = []
           \/ exists script,
                with_suffix (Path c) SLURM = Some script
                /\ evs = [EvOpen script; EvClose script]).
Proof.
  intros Passed Before.
  destruct (jobname_nowhere os c Passed) as [None_ Raises].
  repeat split; [exact None_ | exact Raises |].
  destruct (_prep_app before (c :: rest) ncpus ngpus wall_time w Before) as [E R].
  rewrite E, R, _prep_cons.
  destruct (with_suffix (Path c) SLURM) as [script|].
  - destruct (may_open os script).
    + rewrite Raises. exists AttributeError_None_parts, [EvOpen script; EvClose script].
      repeat split. right. exists script. auto.
    + exists (OSError_open script), []. auto.
  - exists (ValueError_empty_name (Path c)), []. auto.
Qed.

End Generator.

(** ** The submission driver *)

Lemma runs_app (a b : list event) : runs (a ++ b) = runs a ++ runs b.
Proof.
  induction a as [|ev a IH]; [reflexivity|].
  destruct ev; cbn [app runs]; rewrite ?IH; reflexivity.
Qed.

Lemma runs_file_events (evs : list event) :
  forallb is_file_event evs = true -> runs evs = [].
Proof.
  induction evs as [|ev evs IH]; [reflexivity|].
  cbn [forallb]. intros H. apply andb_true_iff in H as [F H].
  destruct ev; try discriminate; cbn [runs]; exact (IH H).
Qed.

Lemma filter_all {A : Type} (f : A -> bool) (l : list A) :
  forallb f l = true -> filter f l = l.
Proof.
  induction l as [|x l IH]; [reflexivity|].
  cbn [forallb filter]. intros H. apply andb_true_iff in H as [F H].
  rewrite F, (IH H). reflexivity.
Qed.

Section Driver.

Variable World : Type.
Variable sbatch : scheduler World.

Lemma run_and_parse_eq (cmdline : list str) (cwd : PurePath)
    (after : option jobref) (chain : bool) (w : World) :
  run_and_parse sbatch cmdline cwd after chain w
  = mkRan [EvRun cmdline cwd (snd (sbatch w cmdline cwd))]
      (fst (sbatch w cmdline cwd))
      match parse_job_id cmdline (snd (sbatch w cmdline cwd)) with
      | inl e => Raise e
      | inr jobid => Return (if chain then Some (JobStr jobid) else after)
      end.
Proof.
  unfold run_and_parse, bind, subprocess_run, parse_job_id.
  destruct (sbatch w cmdline cwd) as [w' out]. cbn [fst snd result events final].
  destruct out as [msg | rc data]; [reflexivity|].
  destruct (rc =? 0)%Z; [|reflexivity].
  destruct (utf8_decode data) as [stdout|]; [|reflexivity].
  cbn. destruct (last_item (split stdout)); reflexivity.
Qed.

(** One turn of the loop of [_submit]. *)
Lemma _submit_cons (c : str) (rest : list str) (after : option jobref)
    (chain : bool) (w : World) :
  _submit sbatch (c :: rest) after chain w
  = match with_suffix (Path c) SLURM with
    | None => mkRan [] w (Raise (ValueError_empty_name (Path c)))
    | Some script =>
        let cmdline := submission script after in
        let cwd := parent (Path c) in
        let out := snd (sbatch w cmdline cwd) in
        let shown := EvPrint (lit "Running: " ++ join (lit " ") cmdline) in
        match parse_job_id cmdline out with
        | inl e =>
            mkRan [shown; EvRun cmdline cwd out] (fst (sbatch w cmdline cwd)) (SysExit e)
        | inr jobid =>
            let r := _submit sbatch rest
                       (if chain then Some (JobStr jobid) else after) chain
                       (fst (sbatch w cmdline cwd)) in
            mkRan (shown :: EvRun cmdline cwd out :: events r) (final r) (result r)
        end
    end.
Proof.
  cbn [_submit]. destruct (with_suffix (Path c) SLURM) as [script|]; [|reflexivity].
  unfold or_raise, bind, try_except, emit, ret, sys_exit.
  cbn [result final events app]. rewrite run_and_parse_eq.
  cbn [result final events app].
  destruct (parse_job_id (submission script after)
              (snd (sbatch w (submission script after) (parent (Path c)))));
    cbn [result final events app]; reflexivity.
Qed.

(** The driver opens and writes no file. *)
Lemma _submit_no_file_event (configs : list str) (after : option jobref)
    (chain : bool) (w : World) :
  filter is_file_event (events (_submit sbatch configs after chain w)) = [].
Proof.
  revert after w. induction configs as [|c rest IH]; intros after w; [reflexivity|].
  rewrite _submit_cons. destruct (with_suffix (Path c) SLURM) as [script|]; [|reflexivity].
  cbv zeta. destruct (parse_job_id _ _); [reflexivity|].
  cbn [events filter is_file_event]. apply IH.
Qed.

(** The [i]-th external command of a run of the driver is the submission of
    the [i]-th config, from the directory of that config. *)
Lemma runs_are_submissions (configs : list str) :
  forall (after : option jobref) (chain : bool) (w : World) (i : nat)
         (cmdline : list str) (cwd : PurePath) (out : run_outcome),
    nth_error (runs (events (_submit sbatch configs after chain w))) i
    = Some (cmdline, cwd, out) ->
    exists c script dep,
      nth_error configs i = Some c
      /\ with_suffix (Path c) SLURM = Some script
      /\ cmdline = lit "sbatch" :: str_of_path script :: dep
      /\ cwd = parent (Path c).
Proof.
  induction configs as [|c rest IH]; intros after chain w i cmdline cwd out.
  - destruct i; discriminate.
  - rewrite _submit_cons.
    destruct (with_suffix (Path c) SLURM) as [script|] eqn:W; [|destruct i; discriminate].
    cbv zeta. destruct (parse_job_id _ _) as [e|jobid]; cbn [events runs].
    + destruct i as [|[|i]]; try discriminate.
      intros E; injection E as <- <- <-.
      exists c, script, (dependency after). auto.
    + destruct i as [|i].
      * intros E; injection E as <- <- <-.
        exists c, script, (dependency after). auto.
      * cbn [nth_error]. apply IH.
Qed.

(** The first external command of a run carries the dependency in effect. *)
Lemma first_run (configs : list str) (after : option jobref) (chain : bool)
    (w : World) (cmdline : list str) (cwd : PurePath) (out : run_outcome) :
  nth_error (runs (events (_submit sbatch configs after chain w))) 0
  = Some (cmdline, cwd, out) ->
  exists c script,
    nth_error configs 0 = Some c
    /\ with_suffix (Path c) SLURM = Some script
    /\ cmdline = submission script after.
Proof.
  destruct configs as [|c rest]; [discriminate|].
  rewrite _submit_cons.
  destruct (with_suffix (Path c) SLURM) as [script|] eqn:W; [|discriminate].
  cbv zeta. destruct (parse_job_id _ _) as [e|jobid]; cbn [events runs nth_error];
    intros E; injection E as <- <- <-; exists c, script; auto.
Qed.

(** A submission whose job id could not be read is the last one, and the
    driver exits with the exception as its message. *)
Lemma unreadable_is_fatal (configs : list str) :
  forall (after : option jobref) (chain : bool) (w : World) (k : nat)
         (cmdline : list str) (cwd : PurePath) (out : run_outcome) (e : exn),
    nth_error (runs (events (_submit sbatch configs after chain w))) k
    = Some (cmdline, cwd, out) ->
    parse_job_id cmdline out = inl e ->
    result (_submit sbatch configs after chain w) = SysExit e
    /\ List.length (runs (events (_submit sbatch configs after chain w))) = S k.
Proof.
  induction configs as [|c rest IH]; intros after chain w k cmdline cwd out e.
  - destruct k; discriminate.
  - rewrite _submit_cons.
    destruct (with_suffix (Path c) SLURM) as [script|] eqn:W; [|destruct k; discriminate].
    cbv zeta. destruct (parse_job_id _ _) as [e'|jobid] eqn:P; cbn [events runs result].
    + destruct k as [|[|k]]; try discriminate.
      intros E; injection E as <- <- <-. rewrite P. intros E; injection E as <-.
      split; reflexivity.
    + destruct k as [|k].
      * intros E; injection E as <- <- <-. rewrite P. discriminate.
      * cbn [nth_error List.length]. intros E Pk.
        destruct (IH _ _ _ _ _ _ _ _ E Pk) as [R L]. rewrite R, L. split; reflexivity.
Qed.

(** While the job ids are read, they are carried forward when chaining. *)
Lemma chained_runs (configs : list str) :
  forall (after : option jobref) (w : World) (i : nat)
         (cmdline : list str) (cwd : PurePath) (out : run_outcome),
    nth_error (runs (events (_submit sbatch configs after true w))) (S i)
    = Some (cmdline, cwd, out) ->
    exists cmdline0 cwd0 out0 jobid c script,
      nth_error (runs (events (_submit sbatch configs after true w))) i
      = Some (cmdline0, cwd0, out0)
      /\ parse_job_id cmdline0 out0 = inr jobid
      /\ nth_error configs (S i) = Some c
      /\ with_suffix (Path c) SLURM = Some script
      /\ cmdline = submission script (Some (JobStr jobid)).
Proof.
  induction configs as [|c rest IH]; intros after w i cmdline cwd out.
  - discriminate.
  - rewrite _submit_cons.
    destruct (with_suffix (Path c) SLURM) as [script|] eqn:W; [|discriminate].
    cbv zeta. destruct (parse_job_id _ _) as [e|jobid] eqn:P; cbn [events runs].
    + destruct i; discriminate.
    + destruct i as [|i]; cbn [nth_error].
      * intros E. destruct (first_run _ _ _ _ _ _ _ E) as (c1 & script1 & N & W1 & ->).
        exists (submission script after), (parent (Path c)),
          (snd (sbatch w (submission script after) (parent (Path c)))),
          jobid, c1, script1.
        auto.
      * intros E.
        destruct (IH _ _ _ _ _ _ E)
          as (cmdline0 & cwd0 & out0 & jobid0 & c1 & script1 & E0 & P0 & N & W1 & ->).
        exists cmdline0, cwd0, out0, jobid0, c1, script1. auto.
Qed.

(** Without chaining, the dependency in effect never changes. *)
Lemma unchained_runs (configs : list str) :
  forall (after : option jobref) (w : World),
    Forall (fun run => exists script, fst (fst run) = submission script after)
      (runs (events (_submit sbatch configs after false w))).
Proof.
  induction configs as [|c rest IH]; intros after w; [constructor|].
  rewrite _submit_cons.
  destruct (with_suffix (Path c) SLURM) as [script|] eqn:W; [|constructor].
  cbv zeta. destruct (parse_job_id _ _) as [e|jobid]; cbn [events runs].
  - constructor; [|constructor]. exists script. reflexivity.
  - constructor; [|apply IH]. exists script. reflexivity.
Qed.

Lemma parse_job_id_ok (cmdline : list str) (out : run_outcome) (jobid : str) :
  parse_job_id cmdline out = inr jobid ->
  exists data stdout,
    out = RunExited 0 data
    /\ utf8_decode data = Some stdout
    /\ last_item (split stdout) = Some jobid.
Proof.
  unfold parse_job_id. destruct out as [msg|rc data]; [discriminate|].
  destruct (Z.eqb_spec rc 0) as [->|]; [|discriminate].
  destruct (utf8_decode data) as [stdout|] eqn:D; [|discriminate].
  destruct (last_item (split stdout)) as [j|] eqn:L; [|discriminate].
  intros E; injection E as <-. exists data, stdout. auto.
Qed.

Lemma parse_job_id_failed (cmdline : list str) (out : run_outcome) :
  run_failed out = true ->
  parse_job_id cmdline out = inl (run_exception cmdline out).
Proof.
  destruct out as [msg|rc data]; [reflexivity|].
  cbn [run_failed parse_job_id run_exception]. intros H.
  apply negb_true_iff in H. rewrite H. reflexivity.
Qed.

End Driver.

(** ** Whitespace-delimited tokens *)

Lemma split_from_nil (tok s : str) :
  split_from tok s = [] <-> tok = [] /\ forallb py_isspace s = true.
Proof.
  revert tok; induction s as [|c s IH]; intros tok; cbn [split_from forallb].
  - destruct tok; split; try discriminate; auto. intros [E _]; discriminate.
  - destruct (py_isspace c) eqn:Sp; cbn [andb].
    + destruct tok as [|x tok].
      * rewrite IH. tauto.
      * split; [discriminate|]. intros [E _]; discriminate.
    + rewrite IH. split; [|intros [_ E]; discriminate].
      intros [E _]. destruct tok; discriminate.
Qed.

(** The output holds no token exactly when it is empty or all whitespace. *)
Lemma split_nil (s : str) : split s = [] <-> forallb py_isspace s = true.
Proof. unfold split. rewrite split_from_nil. tauto. Qed.

Lemma last_item_cons {A : Type} (x : A) (l : list A) :
  last_item (x :: l) = match last_item l with Some y => Some y | None => Some x end.
Proof.
  revert x; induction l as [|y l IH]; intros x; [reflexivity|].
  change (last_item (x :: y :: l)) with (last_item (y :: l)).
  rewrite IH. destruct (last_item l); reflexivity.
Qed.

Lemma last_item_None {A : Type} (l : list A) : last_item l = None <-> l = [].
Proof.
  destruct l as [|x l]; [tauto|]. rewrite last_item_cons.
  destruct (last_item l); split; discriminate.
Qed.

Lemma ends_with_space_cons (c : char) (pre : str) :
  py_isspace c = true ->
  pre = [] \/ (exists pre' d, pre = pre' ++ [d] /\ py_isspace d = true) ->
  exists pre' d, c :: pre = pre' ++ [d] /\ py_isspace d = true.
Proof.
  intros Sp [-> | (pre' & d & -> & Sd)].
  - exists [], c. auto.
  - exists (c :: pre'), d. auto.
Qed.

Lemma ends_with_space_app (a : str) (c : char) (pre : str) :
  py_isspace c = true ->
  pre = [] \/ (exists pre' d, pre = pre' ++ [d] /\ py_isspace d = true) ->
  exists pre' d, a ++ c :: pre = pre' ++ [d] /\ py_isspace d = true.
Proof.
  intros Sp H. destruct (ends_with_space_cons c pre Sp H) as (pre' & d & E & Sd).
  exists (a ++ pre'), d. rewrite E, app_assoc. auto.
Qed.

(** The last token of [tok ++ s], [tok] being the token that is being read:
    it is not empty, holds no whitespace, is followed by whitespace only, and
    is preceded by nothing or by a whitespace character. *)
Lemma split_from_last (s : str) :
  forall (tok t : str),
    forallb (fun c => negb (py_isspace c)) tok = true ->
    last_item (split_from tok s) = Some t ->
    exists pre post,
      tok ++ s = pre ++ t ++ post
      /\ t <> []
      /\ forallb (fun c => negb (py_isspace c)) t = true
      /\ forallb py_isspace post = true
      /\ (pre = [] \/ exists pre' d, pre = pre' ++ [d] /\ py_isspace d = true).
Proof.
  induction s as [|c s IH]; intros tok t Htok; cbn [split_from].
  - destruct tok as [|x tok]; [discriminate|]. intros E; injection E as <-.
    exists [], []. repeat split; auto. discriminate.
  - destruct (py_isspace c) eqn:Sp.
    + destruct tok as [|x tok].
      * intros L. destruct (IH [] t eq_refl L) as (pre & post & E & N & Ht & Hp & Hpre).
        cbn [app] in E. exists (c :: pre), post. cbn [app]. rewrite E.
        repeat split; auto. right. apply ends_with_space_cons; assumption.
      * rewrite last_item_cons. destruct (last_item (split_from [] s)) as [t'|] eqn:L.
        -- intros E; injection E as ->.
           destruct (IH [] t eq_refl L) as (pre & post & E & N & Ht & Hp & Hpre).
           cbn [app] in E. exists ((x :: tok) ++ c :: pre), post.
           rewrite E, <- app_assoc. cbn [app]. repeat split; auto.
           right. apply (ends_with_space_app (x :: tok)); assumption.
        -- intros E; injection E as <-.
           apply last_item_None, split_from_nil in L as [_ L].
           exists [], (c :: s). cbn [app forallb]. rewrite Sp, L.
           repeat split; auto. discriminate.
    + intros L.
      assert (Htok' : forallb (fun c => negb (py_isspace c)) (tok ++ [c]) = true).
      { rewrite forallb_app, Htok. cbn. rewrite Sp. reflexivity. }
      destruct (IH (tok ++ [c]) t Htok' L) as (pre & post & E & N & Ht & Hp & Hpre).
      exists pre, post. rewrite <- E, <- app_assoc. repeat split; auto.
Qed.

(** [s.split()[-1]] is the last whitespace-delimited token of [s]. *)
Lemma last_token (s t : str) :
  last_item (split s) = Some t ->
  exists pre post,
    s = pre ++ t ++ post
    /\ t <> []
    /\ forallb (fun c => negb (py_isspace c)) t = true
    /\ forallb py_isspace post = true
    /\ (pre = [] \/ exists pre' d, pre = pre' ++ [d] /\ py_isspace d = true).
Proof. intros L. exact (split_from_last s [] t eq_refl L). Qed.

(** ** The whole run *)

Section Process.

Variable World : Type.
Variable sbatch : scheduler World.
Variable os : OS.

(** [main] in terms of its two stages. *)
Lemma main_eq (config : str) (configs : list str) (ncpus ngpus : Z)
    (wall_time : str) (after : option Z) (chain dry_run : bool) (w : World) :
  main sbatch os config configs ncpus ngpus wall_time after chain dry_run w
  = let p := _prep os (config :: configs) ncpus ngpus wall_time w in
    match result p with
    | Return _ =>
        if dry_run then mkRan (events p) w (Return tt)
        else
          let s := _submit sbatch (config :: configs) (option_map JobInt after)
                     chain w in
          mkRan (events p ++ events s) (final s) (result s)
    | Raise e => mkRan (events p) w (Raise e)
    | SysExit e => mkRan (events p) w (SysExit e)
    end.
Proof.
  unfold main, bind. cbv zeta.
  rewrite (_prep_final World os (config :: configs) ncpus ngpus wall_time w).
  destruct (result (_prep os (config :: configs) ncpus ngpus wall_time w));
    [|reflexivity|reflexivity].
  destruct dry_run; cbn [negb]; [|reflexivity].
  cbn [ret events final result]. rewrite app_nil_r. reflexivity.
Qed.

(** The external commands of a whole run are those of the driver. *)
Lemma main_runs (config : str) (configs : list str) (ncpus ngpus : Z)
    (wall_time : str) (after : option Z) (chain : bool) (w : World) :
  runs (events (main sbatch os config configs ncpus ngpus wall_time after chain
                  false w)) = []
  \/ (result (_prep os (config :: configs) ncpus ngpus wall_time w) = Return tt
      /\ runs (events (main sbatch os config configs ncpus ngpus wall_time after
                         chain false w))
         = runs (events (_submit sbatch (config :: configs)
                           (option_map JobInt after) chain w))
      /\ result (main sbatch os config configs ncpus ngpus wall_time after chain
                   false w)
         = result (_submit sbatch (config :: configs)
                     (option_map JobInt after) chain w)).
Proof.
  rewrite main_eq. cbv zeta.
  pose proof (_prep_file_events World os (config :: configs) ncpus ngpus wall_time w)
    as F. apply runs_file_events in F.
  destruct (result (_prep os (config :: configs) ncpus ngpus wall_time w)) as [[]|e|e];
    cbn [events result]; [|left; exact F|left; exact F].
  right. rewrite runs_app, F. auto.
Qed.

(** C1: in a run of the driver over three configs with chaining, the
    command line of the second submission ends with the dependency clause
    for the job id that is the last whitespace-delimited token of the output
    of the first submission, and the command line of the third with the
    clause for the id read the same way from the output of the second. *)
Theorem chain_dependency (c1 c2 c3 : str) (after : option jobref) (w : World)
    (i : nat) (cmdline : list str) (cwd : PurePath) (out : run_outcome) :
  nth_error (runs (events (_submit sbatch [c1; c2; c3] after true w))) (S i)
  = Some (cmdline, cwd, out) ->
  exists cmdline0 cwd0 data stdout jobid c script,
    nth_error (runs (events (_submit sbatch [c1; c2; c3] after true w))) i
    = Some (cmdline0, cwd0, RunExited 0 data)
    /\ utf8_decode data = Some stdout
    /\ last_item (split stdout) = Some jobid
    /\ (exists pre post,
         stdout = pre ++ jobid ++ post
         /\ jobid <> []
         /\ forallb (fun ch => negb (py_isspace ch)) jobid = true
         /\ forallb py_isspace post = true
         /\ (pre = [] \/ exists pre' d, pre = pre' ++ [d] /\ py_isspace d = true))
    /\ nth_error [c1; c2; c3] (S i) = Some c
    /\ with_suffix (Path c) SLURM = Some script
    /\ cmdline
       = [lit "sbatch"; str_of_path script; lit "--dependency=afterok:" ++ jobid].
Proof.
  intros E.
  destruct (chained_runs World sbatch _ _ _ _ _ _ _ E)
    as (cmdline0 & cwd0 & out0 & jobid & c & script & E0 & P & N & W & ->).
  destruct (parse_job_id_ok _ _ _ P) as (data & stdout & -> & D & L).
  exists cmdline0, cwd0, data, stdout, jobid, c, script.
  repeat split; auto. exact (last_token stdout jobid L).
Qed.

(** C2: when the submit command fails on the [k]-th config, by raising or by
    exiting with a nonzero status, the process ends at once through
    [sys.exit] with the error as its message and the exit status 1; the
    failed submission is the last external command, so no later config is
    submitted, and every external command of the run is the [sbatch] of the
    config at its position: nothing undoes the earlier submissions. *)
Theorem submit_failure_is_fatal (config : str) (configs : list str)
    (ncpus ngpus : Z) (wall_time : str) (after : option Z) (chain : bool)
    (w : World) (k : nat) (cmdline : list str) (cwd : PurePath)
    (out : run_outcome) :
  let r := main sbatch os config configs ncpus ngpus wall_time after chain
             false w in
  nth_error (runs (events r)) k = Some (cmdline, cwd, out) ->
  run_failed out = true ->
  result r = SysExit (run_exception cmdline out)
  /\ exit_status (result r) = 1%Z
  /\ List.length (runs (events r)) = S k
  /\ forall i cmd dir o,
       nth_error (runs (events r)) i = Some (cmd, dir, o) ->
       (i <= k)%nat
       /\ exists c script dep,
            nth_error (config :: configs) i = Some c
            /\ with_suffix (Path c) SLURM = Some script
            /\ cmd = lit "sbatch" :: str_of_path script :: dep
            /\ dir = parent (Path c).
Proof.
  intros r. subst r.
  destruct (main_runs config configs ncpus ngpus wall_time after chain w)
    as [Nil | (_ & Runs & Res)].
  - rewrite Nil. destruct k; discriminate.
  - rewrite Runs, Res. intros E F.
    destruct (unreadable_is_fatal World sbatch _ _ _ _ _ _ _ _ _ E
                (parse_job_id_failed _ _ F)) as [R L].
    rewrite R, L. repeat split.
    + assert (Lt : (i < List.length
                         (runs (events (_submit sbatch (config :: configs)
                                          (option_map JobInt after) chain w))))%nat)
        by (apply nth_error_Some; rewrite H; discriminate).
      rewrite L in Lt. lia.
    + exact (runs_are_submissions World sbatch _ _ _ _ _ _ _ _ H).
Qed.

(** C10: when the submit command exits with status 0 on the [k]-th config
    and its output is empty or all whitespace, the process ends at once
    through [sys.exit] with the [IndexError] as its message and the exit
    status 1, whether chaining is enabled or not, and no later config is
    submitted. *)
Theorem empty_output_is_fatal (config : str) (configs : list str)
    (ncpus ngpus : Z) (wall_time : str) (after : option Z) (chain : bool)
    (w : World) (k : nat) (cmdline : list str) (cwd : PurePath)
    (data : bytes) (stdout : str) :
  let r := main sbatch os config configs ncpus ngpus wall_time after chain
             false w in
  nth_error (runs (events r)) k = Some (cmdline, cwd, RunExited 0 data) ->
  utf8_decode data = Some stdout ->
  forallb py_isspace stdout = true ->
  result r = SysExit IndexError
  /\ exit_status (result r) = 1%Z
  /\ List.length (runs (events r)) = S k.
Proof.
  intros r. subst r.
  destruct (main_runs config configs ncpus ngpus wall_time after chain w)
    as [Nil | (_ & Runs & Res)].
  - rewrite Nil. destruct k; discriminate.
  - rewrite Runs, Res. intros E D Sp.
    assert (P : parse_job_id cmdline (RunExited 0 data) = inl IndexError).
    { cbn [parse_job_id Z.eqb]. rewrite D. apply split_nil in Sp. rewrite Sp.
      reflexivity. }
    destruct (unreadable_is_fatal World sbatch _ _ _ _ _ _ _ _ _ E P) as [R L].
    rewrite R, L. auto.
Qed.

(** C9: without chaining, the dependency clause for the job id given with
    [--after] ends the command line of every submission of the run. *)
Theorem initial_dependency_kept (config : str) (configs : list str)
    (ncpus ngpus : Z) (wall_time : str) (after : Z) (w : World) :
  Forall (fun run =>
            exists script,
              fst (fst run)
              = [lit "sbatch"; str_of_path script;
                 lit "--dependency=afterok:" ++ str_of_int after])
    (runs (events (main sbatch os config configs ncpus ngpus wall_time
                     (Some after) false false w))).
Proof.
  destruct (main_runs config configs ncpus ngpus wall_time (Some after) false w)
    as [Nil | (_ & Runs & _)].
  - rewrite Nil. constructor.
  - rewrite Runs.
    exact (unchained_runs World sbatch (config :: configs) (Some (JobInt after)) w).
Qed.

(** C6: a dry run opens, writes and closes the same files with the same
    contents as the run without the flag, and runs no external command; its
    trace is that of the generator. *)
Theorem dry_run_only_writes (config : str) (configs : list str)
    (ncpus ngpus : Z) (wall_time : str) (after : option Z) (chain : bool)
    (w : World) :
  let dry := main sbatch os config configs ncpus ngpus wall_time after chain
               true w in
  let wet := main sbatch os config configs ncpus ngpus wall_time after chain
               false w in
  filter is_file_event (events dry) = filter is_file_event (events wet)
  /\ events dry = events (_prep os (config :: configs) ncpus ngpus wall_time w)
  /\ runs (events dry) = []
  /\ final dry = w.
Proof.
  intros dry wet. subst dry wet. rewrite !main_eq. cbv zeta.
  pose proof (_prep_file_events World os (config :: configs) ncpus ngpus wall_time w)
    as F.
  destruct (result (_prep os (config :: configs) ncpus ngpus wall_time w));
    cbn [events final]; repeat split; auto using runs_file_events.
  rewrite filter_app, _submit_no_file_event, app_nil_r. reflexivity.
Qed.

End Process.

(** ** Worked examples *)

(** Outside the home directory and without a [.git] directory, the config
    [/scratch/x.conf] stops the generator after the config before it. *)
Lemma jobname_none_aborts_witness :
  _jobname Sample.os_bare (Path (lit "/scratch/x.conf"))
  = inl AttributeError_None_parts
  /\ exists e evs,
       result (_prep Sample.os_bare
                 ([lit "/home/user/ok.conf"]
                  ++ lit "/scratch/x.conf" :: [lit "/home/user/later.conf"])
                 2 1 (lit "12:00:00") tt) = Raise e
       /\ events (_prep Sample.os_bare
                    ([lit "/home/user/ok.conf"]
                     ++ lit "/scratch/x.conf" :: [lit "/home/user/later.conf"])
                    2 1 (lit "12:00:00") tt)
          = events (_prep Sample.os_bare [lit "/home/user/ok.conf"] 2 1
                      (lit "12:00:00") tt) ++ evs
       /\ (evs = []
           \/ exists script,
                with_suffix (Path (lit "/scratch/x.conf")) SLURM = Some script
                /\ evs = [EvOpen script; EvClose script]).
Proof.
  destruct (jobname_none_aborts unit Sample.os_bare (lit "/scratch/x.conf")
              [lit "/home/user/ok.conf"] [lit "/home/user/later.conf"]
              2 1 (lit "12:00:00") tt eq_refl eq_refl) as (_ & Raises & Aborts).
  split; [exact Raises | exact Aborts].
Defined.

(** Three configs submitted as a chain to a scheduler that accepts them:
    the third submission waits for job 102, the id in the output of the
    second. *)
Lemma chain_dependency_witness :
  nth_error
    (runs (events (_submit Sample.accepting Sample.three_configs None true 0%nat))) 2
  = Some ([lit "sbatch"; lit "c.slurm"; lit "--dependency=afterok:102"],
          Path (lit ""), RunExited 0 (Sample.submitted 2))
  /\ exists data stdout jobid,
       nth_error
         (runs (events (_submit Sample.accepting Sample.three_configs None true 0%nat))) 1
       = Some ([lit "sbatch"; lit "b.slurm"; lit "--dependency=afterok:101"],
               Path (lit ""), RunExited 0 data)
       /\ utf8_decode data = Some stdout
       /\ last_item (split stdout) = Some jobid
       /\ jobid = lit "102".
Proof.
  split; [reflexivity|].
  destruct (chain_dependency nat Sample.accepting (lit "a.conf") (lit "b.conf")
              (lit "c.conf") None 0%nat 1%nat
              [lit "sbatch"; lit "c.slurm"; lit "--dependency=afterok:102"]
              (Path (lit "")) (RunExited 0 (Sample.submitted 2)) eq_refl)
    as (cmdline0 & cwd0 & data & stdout & jobid & c & script
        & Run & Decoded & Last & _ & _ & _ & Cmd).
  vm_compute in Run. injection Run as <- <- <-.
  exists (Sample.submitted 1), stdout, jobid. repeat split; auto.
  vm_compute in Decoded. injection Decoded as <-.
  vm_compute in Last. injection Last as <-. reflexivity.
Defined.

(** Three configs, the second of which the scheduler refuses: the process
    exits with the error after two submissions. *)
Lemma submit_failure_is_fatal_witness :
  nth_error
    (runs (events (main Sample.refusing_second Sample.os (lit "a.conf")
                     [lit "b.conf"; lit "c.conf"] 2 1 (lit "12:00:00") None false
                     false 0%nat))) 1
  = Some ([lit "sbatch"; lit "b.slurm"], Path (lit ""), RunExited 1 [])
  /\ result (main Sample.refusing_second Sample.os (lit "a.conf")
              [lit "b.conf"; lit "c.conf"] 2 1 (lit "12:00:00") None false
              false 0%nat)
     = SysExit (CalledProcessError [lit "sbatch"; lit "b.slurm"] 1)
  /\ List.length
       (runs (events (main Sample.refusing_second Sample.os (lit "a.conf")
                        [lit "b.conf"; lit "c.conf"] 2 1 (lit "12:00:00") None false
                        false 0%nat)))
     = 2%nat.
Proof.
  split; [reflexivity|].
  destruct (submit_failure_is_fatal nat Sample.refusing_second Sample.os (lit "a.conf")
              [lit "b.conf"; lit "c.conf"] 2 1 (lit "12:00:00") None false 0%nat
              1%nat [lit "sbatch"; lit "b.slurm"] (Path (lit "")) (RunExited 1 [])
              eq_refl eq_refl) as (Res & _ & Len & _).
  split; [exact Res | exact Len].
Defined.

(** A scheduler that prints nothing: the first submission ends the run,
    without chaining. *)
Lemma empty_output_is_fatal_witness :
  nth_error
    (runs (events (main Sample.silent Sample.os (lit "a.conf")
                     [lit "b.conf"; lit "c.conf"] 2 1 (lit "12:00:00") None false
                     false 0%nat))) 0
  = Some ([lit "sbatch"; lit "a.slurm"], Path (lit ""), RunExited 0 [])
  /\ result (main Sample.silent Sample.os (lit "a.conf")
              [lit "b.conf"; lit "c.conf"] 2 1 (lit "12:00:00") None false
              false 0%nat)
     = SysExit IndexError
  /\ List.length
       (runs (events (main Sample.silent Sample.os (lit "a.conf")
                        [lit "b.conf"; lit "c.conf"] 2 1 (lit "12:00:00") None false
                        false 0%nat)))
     = 1%nat.
Proof.
  split; [reflexivity|].
  destruct (empty_output_is_fatal nat Sample.silent Sample.os (lit "a.conf")
              [lit "b.conf"; lit "c.conf"] 2 1 (lit "12:00:00") None false 0%nat
              0%nat [lit "sbatch"; lit "a.slurm"] (Path (lit "")) [] []
              eq_refl eq_refl eq_refl) as (Res & _ & Len).
  split; [exact Res | exact Len].
Defined.

(** Outside any repository, a path below the home directory is named by its
    components relative to the home directory. *)
Lemma jobname_below_home_witness :
  _jobname Sample.os_bare (Path (lit "/home/user/sim/eq/input.conf"))
  = inr (lit "sim_eq_input.conf").
Proof.
  destruct (jobname_below_home Sample.os_bare (lit "/home/user/sim/eq/input.conf") 2
              (Path (lit "/home/user")) eq_refl eq_refl eq_refl eq_refl)
    as (rel & Hrel & Hname).
  vm_compute in Hrel. injection Hrel as <-. exact Hname.
Defined.

(** * Further properties *)

(** ** The wall-time validator, on every string *)

Section WallTimeEverywhere.

Variable is_decimal : char -> bool.

(** What the pattern matches, the final newline included. *)
Lemma re_match_walltime_iff (v : str) :
  re_match (walltime_pattern is_decimal) v = true
  <-> walltime_shape is_decimal v
      \/ exists v', v = v' ++ NL /\ walltime_shape is_decimal v'.
Proof.
  unfold re_match. rewrite match_re_spec. split.
  - intros (s1 & s2 & -> & L & K). apply lang_walltime_pattern in L.
    apply at_end_spec in K as [-> | ->].
    + left. rewrite app_nil_r. exact L.
    + right. exists s1. auto.
  - intros [S | (v' & -> & S)]; apply lang_walltime_pattern in S.
    + exists v, []. rewrite app_nil_r. auto.
    + exists v', NL. auto.
Qed.

Lemma shape_accepted (v : str) :
  walltime_shape is_decimal v -> convert is_decimal v = inl v.
Proof.
  intros S. unfold convert.
  assert (M : re_match (walltime_pattern is_decimal) v = true)
    by (apply re_match_walltime_iff; left; exact S).
  rewrite M. reflexivity.
Qed.

(** The validator accepts a string exactly when the string, or the string
    without one final newline, has the shape
    [[days][[-]hours[:]][minutes][:seconds]]; every other string is refused
    with the message that carries it. *)
Theorem convert_accepts_iff (v : str) :
  (convert is_decimal v = inl v
   <-> walltime_shape is_decimal v
       \/ exists v', v = v' ++ NL /\ walltime_shape is_decimal v')
  /\ (convert is_decimal v = inl v
      \/ convert is_decimal v
         = inr (BadParameter [FRepr v; FText (lit " is not a valid walltime")])).
Proof.
  pose proof (re_match_walltime_iff v) as M. unfold convert.
  destruct (re_match (walltime_pattern is_decimal) v); split; auto.
  - split; [intros _; apply M; reflexivity | reflexivity].
  - split; [discriminate|]. intros S. apply M in S. discriminate.
Qed.

(** Every wall-time format of the scheduler is accepted: minutes,
    minutes:seconds, hours:minutes:seconds, days-hours, days-hours:minutes
    and days-hours:minutes:seconds, whatever the number of digits of each
    component. *)
Theorem convert_accepts_slurm_formats (d h m s v : str) :
  digits is_decimal d -> digits is_decimal h ->
  digits is_decimal m -> digits is_decimal s ->
  In v (slurm_formats d h m s) ->
  convert is_decimal v = inl v.
Proof.
  intros Dd Dh Dm Ds I. apply shape_accepted.
  unfold slurm_formats in I. cbn [In] in I.
  destruct I as [<-|[<-|[<-|[<-|[<-|[<-|[]]]]]]].
  - exists [], [], m, []. split; [same_string|]. repeat split; auto.
  - exists [], [], m, (58 :: s). split; [same_string|]. repeat split; auto.
    right. exists s. auto.
  - exists [], (h ++ [58]), m, (58 :: s). split; [same_string|]. repeat split; auto.
    + right. exists h. auto.
    + right. exists s. auto.
  - exists d, (45 :: h), [], []. split; [same_string|]. repeat split; auto.
    right. exists h. auto.
  - exists d, (45 :: h ++ [58]), m, []. split; [same_string|]. repeat split; auto.
    right. exists h. auto 6.
  - exists d, (45 :: h ++ [58]), m, (58 :: s). split; [same_string|].
    repeat split; auto.
    + right. exists h. auto 6.
    + right. exists s. auto.
Qed.

Lemma occurrences_app (c : char) (a b : str) :
  occurrences c (a ++ b) = (occurrences c a + occurrences c b)%nat.
Proof. unfold occurrences. rewrite filter_app, length_app. reflexivity. Qed.

Lemma occurrences_digits (c : char) (s : str) :
  is_decimal c = false ->
  s = [] \/ digits is_decimal s ->
  occurrences c s = 0%nat.
Proof.
  intros Nc [-> | [_ F]]; [reflexivity|].
  unfold occurrences. induction F as [|x s Hx F IH]; [reflexivity|].
  cbn [filter]. destruct (N.eqb_spec c x) as [->|]; [congruence | exact IH].
Qed.

Lemma shape_occurrences (v : str) :
  is_decimal 45 = false -> is_decimal 58 = false ->
  walltime_shape is_decimal v ->
  (occurrences 45 v <= 1)%nat /\ (occurrences 58 v <= 2)%nat.
Proof.
  intros Hy Co (d & h & m & s & -> & Hd & Hh & Hm & Hs).
  rewrite !occurrences_app.
  rewrite (occurrences_digits 45 d Hy Hd), (occurrences_digits 58 d Co Hd).
  rewrite (occurrences_digits 45 m Hy Hm), (occurrences_digits 58 m Co Hm).
  assert (Hh' : (occurrences 45 h <= 1)%nat /\ (occurrences 58 h <= 1)%nat).
  { destruct Hh as [-> | (hh & Dh & E)]; [split; auto|].
    pose proof (occurrences_digits 45 hh Hy (or_intror Dh)) as H45.
    pose proof (occurrences_digits 58 hh Co (or_intror Dh)) as H58.
    destruct E as [-> | [-> | [-> | ->]]].
    - rewrite H45, H58. split; auto.
    - change (45 :: hh) with ([45] ++ hh). rewrite !occurrences_app, H45, H58.
      split; cbn; auto.
    - rewrite !occurrences_app, H45, H58. split; cbn; auto.
    - change (45 :: hh ++ [58]) with ([45] ++ hh ++ [58]).
      rewrite !occurrences_app, H45, H58. split; cbn; auto. }
  assert (Hs' : occurrences 45 s = 0%nat /\ (occurrences 58 s <= 1)%nat).
  { destruct Hs as [-> | (dd & Dd & ->)]; [split; auto|].
    change (58 :: dd) with ([58] ++ dd). rewrite !occurrences_app.
    rewrite (occurrences_digits 45 dd Hy (or_intror Dd)).
    rewrite (occurrences_digits 58 dd Co (or_intror Dd)). split; cbn; auto. }
  destruct Hh' as [A B], Hs' as [C D]. rewrite C. lia.
Qed.

(** An accepted wall time holds at most one hyphen and at most two colons,
    and apart from a final newline nothing but digits, colons and hyphens
    (the hyphen and the colon being no digits). *)
Theorem accepted_walltime_characters (v : str) :
  is_decimal 45 = false -> is_decimal 58 = false ->
  convert is_decimal v = inl v ->
  (occurrences 45 v <= 1)%nat
  /\ (occurrences 58 v <= 2)%nat
  /\ (forallb (walltime_char is_decimal) v = true
      \/ exists v', v = v' ++ NL /\ forallb (walltime_char is_decimal) v' = true).
Proof.
  intros Hy Co A.
  assert (M : re_match (walltime_pattern is_decimal) v = true).
  { unfold convert in A. destruct (re_match (walltime_pattern is_decimal) v);
      [reflexivity | discriminate]. }
  apply re_match_walltime_iff in M as [S | (v' & -> & S)].
  - destruct (shape_occurrences v Hy Co S) as [H1 H2]. repeat split; auto.
    left. apply forallb_forall. apply Forall_forall, walltime_shape_chars, S.
  - destruct (shape_occurrences v' Hy Co S) as [H1 H2].
    rewrite !occurrences_app. change (occurrences 45 NL) with 0%nat.
    change (occurrences 58 NL) with 0%nat. rewrite !Nat.add_0_r.
    repeat split; auto. right. exists v'. split; [reflexivity|].
    apply forallb_forall. apply Forall_forall, walltime_shape_chars, S.
Qed.

End WallTimeEverywhere.

(** Two days, four hours, thirty minutes and fifteen seconds. *)
Lemma convert_accepts_slurm_formats_witness :
  convert ascii_digit (lit "2-04:30:15") = inl (lit "2-04:30:15").
Proof.
  apply (convert_accepts_slurm_formats ascii_digit (lit "2") (lit "04") (lit "30")
           (lit "15") (lit "2-04:30:15")).
  - split; [discriminate | repeat constructor].
  - split; [discriminate | repeat constructor].
  - split; [discriminate | repeat constructor].
  - split; [discriminate | repeat constructor].
  - do 5 right. left. reflexivity.
Defined.

Lemma accepted_walltime_characters_witness :
  (occurrences 45 (lit "1-2:3:4") <= 1)%nat
  /\ (occurrences 58 (lit "1-2:3:4") <= 2)%nat.
Proof.
  destruct (accepted_walltime_characters ascii_digit (lit "1-2:3:4")
              eq_refl eq_refl eq_refl) as (H & C & _).
  split; [exact H | exact C].
Defined.

(** ** The job name, whatever the path *)

Lemma join_snoc (sep : str) (l : list str) (x : str) :
  join sep (l ++ [x]) = List.concat (map (fun y => y ++ sep) l) ++ x.
Proof.
  induction l as [|y l IH]; [reflexivity|].
  cbn [app map List.concat]. rewrite <- !app_assoc, <- IH.
  destruct (l ++ [x]) eqn:E; [destruct l; discriminate | reflexivity].
Qed.

Lemma join_no_char (c : char) (sep : str) (l : list str) :
  ~ In c sep -> Forall (fun w => ~ In c w) l -> ~ In c (join sep l).
Proof.
  intros Ns F. induction F as [|x l Hx F IH]; [intros []|].
  destruct l as [|y l]; [exact Hx|].
  change (join sep (x :: y :: l)) with (x ++ sep ++ join sep (y :: l)).
  intros I. apply in_app_or in I as [I|I]; [contradiction|].
  apply in_app_or in I as [I|I]; contradiction.
Qed.

Lemma last_app_nonempty {A : Type} (a b : list A) (d : A) :
  b <> [] -> last (a ++ b) d = last b d.
Proof.
  intros N. induction a as [|x a IH]; [reflexivity|].
  cbn [app]. rewrite <- IH. destruct (a ++ b) eqn:E; [|reflexivity].
  apply app_eq_nil in E as [_ E]. contradiction.
Qed.

Section JobNameEverywhere.

Variable os : OS.

(** How the walk over ancestors of [path] ends: nowhere, below a directory
    that holds a [.git] directory, or below the home directory. *)
Lemma walk_up_cases (path : PurePath) (ps : list PurePath) :
  Forall (fun p => In p (parents path)) ps ->
  walk_up os path (Path (home_dir os)) ps = inr None
  \/ exists p rest,
       In p ps /\ rest <> [] /\ comps path = comps p ++ rest
       /\ (walk_up os path (Path (home_dir os)) ps
           = inr (Some (rtruediv (name p) (mkPath [] rest)))
           \/ walk_up os path (Path (home_dir os)) ps
              = inr (Some (mkPath [] rest))).
Proof.
  induction 1 as [|p ps Hp F IH]; [left; reflexivity|].
  destruct (parents_spec path p Hp) as (rest & N & Hroot & Hcomps).
  pose proof (relative_to_parent path p rest Hroot Hcomps) as Hrel.
  cbn [walk_up]. rewrite Hrel.
  destruct (is_dir os (truediv p (lit ".git"))).
  - right. exists p, rest. repeat split; auto. left; reflexivity.
  - destruct (Path_eqb p (Path (home_dir os))).
    + right. exists p, rest. repeat split; auto. left; reflexivity.
    + destruct IH as [E | (q & rest' & I & N' & C & E)]; [left; exact E|].
      right. exists q, rest'. repeat split; auto. right; exact I.
Qed.

Lemma parents_Forall (path : PurePath) :
  Forall (fun p => In p (parents path)) (parents path).
Proof. apply Forall_forall. auto. Qed.

(** The pieces of a job name: valid components, the last of which is the
    name of the file. *)
Lemma jobname_pieces (c : str) (nm : str) :
  _jobname os (Path c) = inr nm ->
  exists pieces,
    nm = join (lit "_") pieces
    /\ pieces <> []
    /\ Forall valid_comp pieces
    /\ last pieces [] = name (absolute os (Path c)).
Proof.
  unfold _jobname, _path_relative_to_root.
  pose proof (absolute_comps_valid os c) as Valid.
  set (path := absolute os (Path c)) in *.
  destruct (walk_up_cases path (parents path) (parents_Forall path))
    as [E | (p & rest & I & N & C & [E | E])]; rewrite E; [discriminate| |].
  - intros J; injection J as <-.
    rewrite C in Valid. apply Forall_app in Valid as [Vp Vrest].
    pose proof (name_valid p Vp) as Vn.
    rewrite (parts_rtruediv (name p) rest Vn).
    assert (L : last rest [] = name path)
      by (unfold name; rewrite C; symmetry; apply last_app_nonempty, N).
    destruct (name p) as [|x nmp] eqn:En.
    + exists rest. auto.
    + exists ((x :: nmp) :: rest). repeat split; auto; [discriminate| |].
      * constructor; [|exact Vrest]. destruct Vn as [Vn|Vn]; [discriminate|exact Vn].
      * destruct rest; [contradiction | exact L].
  - intros J; injection J as <-. cbn [parts root comps].
    rewrite C in Valid. apply Forall_app in Valid as [_ Vrest].
    exists rest. repeat split; auto.
    unfold name. rewrite C. symmetry. apply last_app_nonempty, N.
Qed.

(** [_jobname] ends in one of two ways only: with a name, or with the
    [AttributeError] of [None.parts]; [relative_to] never raises, the
    directories it is given being ancestors of the path. *)
Theorem jobname_or_attribute_error (c : str) :
  _jobname os (Path c) = inl AttributeError_None_parts
  \/ exists nm, _jobname os (Path c) = inr nm.
Proof.
  unfold _jobname, _path_relative_to_root.
  destruct (walk_up_cases (absolute os (Path c)) (parents (absolute os (Path c)))
              (parents_Forall _)) as [E | (p & rest & _ & _ & _ & [E | E])];
    rewrite E; eauto.
Qed.

(** A job name is never empty, holds no slash, and ends with the name of
    the config file: it is the underscore-joined list of path components,
    the last of which is the file name. *)
Theorem jobname_ends_with_file_name (c nm : str) :
  _jobname os (Path c) = inr nm ->
  nm <> []
  /\ ~ In 47 nm
  /\ name (absolute os (Path c)) <> []
  /\ exists front, nm = front ++ name (absolute os (Path c)).
Proof.
  intros J. destruct (jobname_pieces c nm J) as (pieces & -> & N & V & L).
  destruct (exists_last N) as (dirs & file & ->).
  rewrite last_last in L. subst file.
  apply Forall_app in V as [Vd Vf]. inversion Vf as [|? ? (Vne & _ & Vslash) _]; subst.
  rewrite join_snoc. repeat split.
  - intros E. apply app_eq_nil in E as [_ E]. contradiction.
  - rewrite <- join_snoc. apply join_no_char.
    + cbn. intros [E|[]]. discriminate.
    + apply Forall_app. split; [|constructor; auto].
      eapply Forall_impl; [|exact Vd]. intros w (_ & _ & S). exact S.
  - exact Vne.
  - eexists. reflexivity.
Qed.

(** A relative config and the absolute path it stands for have the same
    job name. *)
Theorem jobname_of_relative_path (c : str) :
  is_absolute (Path (getcwd os)) = true ->
  _jobname os (Path c) = _jobname os (absolute os (Path c))
  /\ is_absolute (absolute os (Path c)) = true.
Proof.
  intros Cwd.
  assert (A : is_absolute (absolute os (Path c)) = true).
  { unfold absolute. destruct (is_absolute (Path c)) eqn:E; [exact E|].
    unfold join_paths. rewrite E. unfold is_absolute in *. cbn [root]. exact Cwd. }
  split; [|exact A].
  unfold _jobname, _path_relative_to_root.
  assert (I : absolute os (absolute os (Path c)) = absolute os (Path c))
    by (unfold absolute at 1; rewrite A; reflexivity).
  rewrite I. reflexivity.
Qed.

End JobNameEverywhere.

Lemma jobname_ends_with_file_name_witness :
  exists front,
    lit "proj_run1_input.conf"
    = front ++ name (absolute Sample.os (Path (lit "input.conf"))).
Proof.
  destruct (jobname_ends_with_file_name Sample.os (lit "input.conf")
              (lit "proj_run1_input.conf") eq_refl) as (_ & _ & _ & front & E).
  exists front. exact E.
Defined.

Lemma jobname_of_relative_path_witness :
  _jobname Sample.os (Path (lit "input.conf"))
  = _jobname Sample.os (Path (lit "/home/user/proj/run1/input.conf")).
Proof.
  destruct (jobname_of_relative_path Sample.os (lit "input.conf") eq_refl) as [E _].
  exact E.
Defined.

(** ** The script generator: file handling and file contents *)

Lemma name_stem_suffix (p : PurePath) : name p = stem p ++ suffix p.
Proof.
  unfold stem, suffix. destruct (suffix_start (name p)) as [i|].
  - symmetry. apply firstn_skipn.
  - symmetry. apply app_nil_r.
Qed.

(** Giving a path the suffix it has changes nothing. *)
Lemma with_suffix_same (p : PurePath) :
  suffix p = SLURM -> with_suffix p SLURM = Some p.
Proof.
  intros S. unfold with_suffix.
  assert (N : name p = stem p ++ SLURM) by (rewrite <- S; apply name_stem_suffix).
  destruct (name p) as [|x nm] eqn:E.
  - destruct (stem p); discriminate.
  - f_equal. destruct p as [r cs]. cbn [root comps]. f_equal.
    unfold name in E. cbn [comps] in E.
    assert (Ne : cs <> []) by (intros ->; discriminate).
    fold SLURM. unfold SLURM in N. fold SLURM in N. rewrite <- N, <- E.
    symmetry. apply app_removelast_last, Ne.
Qed.

Lemma well_bracketed_block (script : PurePath) (pieces : list str)
    (rest : list event) :
  well_bracketed None (EvOpen script :: map (EvWrite script) pieces
                         ++ EvClose script :: rest)
  = well_bracketed None rest.
Proof.
  cbn [well_bracketed]. induction pieces as [|x pieces IH]; cbn [map app well_bracketed].
  - rewrite Path_eqb_refl. reflexivity.
  - rewrite Path_eqb_refl. exact IH.
Qed.






Section GeneratorEverywhere.

Variable World : Type.
Variable os : OS.



(** However the generator ends, it has handled its files as [with] blocks
    do: one file open at a time, every write to the file that is open, and
    every file closed, also when the job name raises. *)
Theorem prep_well_bracketed (configs : list str) (ncpus ngpus : Z)
    (wall_time : str) (w : World) :
  well_bracketed None (events (_prep os configs ncpus ngpus wall_time w)) = true.
Proof.
  induction configs as [|c rest IH]; [reflexivity|].
  rewrite _prep_cons. destruct (with_suffix (Path c) SLURM) as [script|]; [|reflexivity].
  destruct (may_open os script); [|reflexivity].
  destruct (_jobname os (Path c)) as [e|jobname].
  - cbn [events well_bracketed]. rewrite Path_eqb_refl. reflexivity.
  - cbn [events]. rewrite well_bracketed_block. exact IH.
Qed.


(** The script of a config is the config file itself exactly when the
    config has the suffix [.slurm]: the generator then opens the config for
    writing and replaces its text by the script. *)
Theorem slurm_config_is_overwritten (configs : list str) (c : str)
    (ncpus ngpus : Z) (wall_time : str) (w : World) :
  result (_prep os configs ncpus ngpus wall_time w) = Return tt ->
  In c configs ->
  exists script,
    with_suffix (Path c) SLURM = Some script
    /\ In script (opened (events (_prep os configs ncpus ngpus wall_time w)))
    /\ (script = Path c <-> suffix (Path c) = SLURM).
Proof.
  intros R I. apply _prep_generated, generated_opened in R.
  destruct (Forall2_In_left _ _ _ _ R I) as (script & Is & W).
  exists script. repeat split; auto.
  - intros <-. destruct (with_suffix_slurm _ _ W) as (_ & _ & _ & _ & S). exact S.
  - intros S. rewrite (with_suffix_same _ S) in W. injection W as <-. reflexivity.
Qed.

End GeneratorEverywhere.


(** A config named [job.slurm] is its own script. *)
Lemma slurm_config_is_overwritten_witness :
  In (Path (lit "job.slurm"))
     (opened (events (_prep Sample.os [lit "a.conf"; lit "job.slurm"] 2 1
                        (lit "12:00:00") tt))).
Proof.
  destruct (slurm_config_is_overwritten unit Sample.os [lit "a.conf"; lit "job.slurm"]
              (lit "job.slurm") 2 1 (lit "12:00:00") tt eq_refl
              (or_intror (or_introl eq_refl))) as (script & _ & Opened & Same).
  assert (E : script = Path (lit "job.slurm")) by (apply Same; reflexivity).
  rewrite <- E. exact Opened.
Defined.

(** ** The submission driver and the whole run, beyond the claims *)

Lemma printed_app (a b : list event) : printed (a ++ b) = printed a ++ printed b.
Proof.
  induction a as [|ev a IH]; [reflexivity|].
  destruct ev; cbn [app printed]; rewrite ?IH; reflexivity.
Qed.

Lemma printed_file_events (evs : list event) :
  forallb is_file_event evs = true -> printed evs = [].
Proof.
  induction evs as [|ev evs IH]; [reflexivity|].
  cbn [forallb]. intros H. apply andb_true_iff in H as [F H].
  destruct ev; try discriminate; cbn [printed]; exact (IH H).
Qed.

Section ProcessEverywhere.

Variable World : Type.
Variable sbatch : scheduler World.
Variable os : OS.

(** A run of the driver that returns has submitted every config, in order,
    and every submission exited with status 0. *)
Lemma submit_returns (configs : list str) :
  forall (after : option jobref) (chain : bool) (w : World),
    result (_submit sbatch configs after chain w) = Return tt ->
    Forall2 (fun c run =>
               exists script dep data,
                 with_suffix (Path c) SLURM = Some script
                 /\ run = (lit "sbatch" :: str_of_path script :: dep,
                           parent (Path c), RunExited 0 data))
      configs (runs (events (_submit sbatch configs after chain w))).
Proof.
  induction configs as [|c rest IH]; intros after chain w; [constructor|].
  rewrite _submit_cons.
  destruct (with_suffix (Path c) SLURM) as [script|] eqn:W; [|discriminate].
  cbv zeta. destruct (parse_job_id _ _) as [e|jobid] eqn:P; [discriminate|].
  cbn [events runs result]. intros R. constructor; [|exact (IH _ _ _ R)].
  destruct (parse_job_id_ok _ _ _ P) as (data & stdout & E & _).
  exists script, (dependency after), data. rewrite E. auto.
Qed.

(** A driver whose configs all have names never raises: it returns or exits. *)
Lemma submit_returns_or_exits (configs : list str) :
  Forall (fun c => exists script, with_suffix (Path c) SLURM = Some script) configs ->
  forall (after : option jobref) (chain : bool) (w : World),
    result (_submit sbatch configs after chain w) = Return tt
    \/ exists e, result (_submit sbatch configs after chain w) = SysExit e.
Proof.
  induction 1 as [|c rest (script & W) F IH]; intros after chain w; [left; reflexivity|].
  rewrite _submit_cons, W. cbv zeta.
  destruct (parse_job_id _ _) as [e|jobid]; cbn [result]; [right; eauto | apply IH].
Qed.

(** Each command line is printed, and nothing else is. *)
Lemma submit_printed (configs : list str) :
  forall (after : option jobref) (chain : bool) (w : World),
    printed (events (_submit sbatch configs after chain w))
    = map (fun run => lit "Running: " ++ join (lit " ") (fst (fst run)))
        (runs (events (_submit sbatch configs after chain w))).
Proof.
  induction configs as [|c rest IH]; intros after chain w; [reflexivity|].
  rewrite _submit_cons.
  destruct (with_suffix (Path c) SLURM) as [script|]; [|reflexivity].
  cbv zeta. destruct (parse_job_id _ _) as [e|jobid];
    cbn [events runs printed map fst]; [reflexivity|].
  rewrite IH. reflexivity.
Qed.

(** When the whole run returns without the dry-run flag, every config was
    submitted exactly once, in the order given, from the directory of the
    config, and every submission exited with status 0. *)
Theorem all_configs_submitted_in_order (config : str) (configs : list str)
    (ncpus ngpus : Z) (wall_time : str) (after : option Z) (chain : bool)
    (w : World) :
  result (main sbatch os config configs ncpus ngpus wall_time after chain false w)
  = Return tt ->
  Forall2 (fun c run =>
             exists script dep data,
               with_suffix (Path c) SLURM = Some script
               /\ run = (lit "sbatch" :: str_of_path script :: dep,
                         parent (Path c), RunExited 0 data))
    (config :: configs)
    (runs (events (main sbatch os config configs ncpus ngpus wall_time after chain
                     false w))).
Proof.
  rewrite main_eq. cbv zeta.
  pose proof (_prep_file_events World os (config :: configs) ncpus ngpus wall_time w)
    as F. apply runs_file_events in F.
  destruct (result (_prep os (config :: configs) ncpus ngpus wall_time w));
    [|discriminate|discriminate].
  cbn [result events]. rewrite runs_app, F. cbn [app]. apply submit_returns.
Qed.

(** What the run prints is, for each external command and in the same
    order, the line [Running: ] followed by the command line, its words
    joined by blanks; a dry run prints nothing. *)
Theorem commands_are_printed (config : str) (configs : list str)
    (ncpus ngpus : Z) (wall_time : str) (after : option Z)
    (chain dry_run : bool) (w : World) :
  printed (events (main sbatch os config configs ncpus ngpus wall_time after
                     chain dry_run w))
  = map (fun run => lit "Running: " ++ join (lit " ") (fst (fst run)))
      (runs (events (main sbatch os config configs ncpus ngpus wall_time after
                       chain dry_run w)))
  /\ (dry_run = true ->
      printed (events (main sbatch os config configs ncpus ngpus wall_time after
                         chain dry_run w)) = []).
Proof.
  rewrite main_eq. cbv zeta.
  pose proof (_prep_file_events World os (config :: configs) ncpus ngpus wall_time w)
    as F.
  pose proof (runs_file_events _ F) as Fr. pose proof (printed_file_events _ F) as Fp.
  destruct (result (_prep os (config :: configs) ncpus ngpus wall_time w));
    [destruct dry_run|..]; cbn [events]; rewrite ?runs_app, ?printed_app, ?Fr, ?Fp;
    cbn [app map]; split; auto; try discriminate.
  apply submit_printed.
Qed.

(** Without [--after] and without [--chain], no submission carries a
    dependency clause: every command line is [sbatch] and the script. *)
Theorem no_dependency_by_default (config : str) (configs : list str)
    (ncpus ngpus : Z) (wall_time : str) (w : World) :
  Forall (fun run =>
            exists script, fst (fst run) = [lit "sbatch"; str_of_path script])
    (runs (events (main sbatch os config configs ncpus ngpus wall_time None
                     false false w))).
Proof.
  destruct (main_runs World sbatch os config configs ncpus ngpus wall_time None false w)
    as [Nil | (_ & Runs & _)].
  - rewrite Nil. constructor.
  - rewrite Runs. exact (unchained_runs World sbatch (config :: configs) None w).
Qed.

(** When the submit command exits with status 0 on the [k]-th config and
    its output is not UTF-8, the process ends at once through [sys.exit]
    with the [UnicodeDecodeError] as its message and the exit status 1, and
    no later config is submitted. *)
Theorem undecodable_output_is_fatal (config : str) (configs : list str)
    (ncpus ngpus : Z) (wall_time : str) (after : option Z) (chain : bool)
    (w : World) (k : nat) (cmdline : list str) (cwd : PurePath) (data : bytes) :
  nth_error
    (runs (events (main sbatch os config configs ncpus ngpus wall_time after chain
                     false w))) k
  = Some (cmdline, cwd, RunExited 0 data) ->
  utf8_decode data = None ->
  result (main sbatch os config configs ncpus ngpus wall_time after chain false w)
  = SysExit (UnicodeDecodeError data)
  /\ exit_status
       (result (main sbatch os config configs ncpus ngpus wall_time after chain
                  false w)) = 1%Z
  /\ List.length
       (runs (events (main sbatch os config configs ncpus ngpus wall_time after
                        chain false w))) = S k.
Proof.
  destruct (main_runs World sbatch os config configs ncpus ngpus wall_time after chain w)
    as [Nil | (_ & Runs & Res)].
  - rewrite Nil. destruct k; discriminate.
  - rewrite Runs, Res. intros E D.
    assert (P : parse_job_id cmdline (RunExited 0 data)
                = inl (UnicodeDecodeError data)).
    { cbn [parse_job_id Z.eqb]. rewrite D. reflexivity. }
    destruct (unreadable_is_fatal World sbatch _ _ _ _ _ _ _ _ _ E P) as [R L].
    rewrite R, L. auto.
Qed.

(** Once the scripts are generated, the run cannot end with an uncaught
    exception: it returns, or it exits through [sys.exit]. *)
Theorem no_uncaught_exception_after_generation (config : str)
    (configs : list str) (ncpus ngpus : Z) (wall_time : str) (after : option Z)
    (chain dry_run : bool) (w : World) :
  result (_prep os (config :: configs) ncpus ngpus wall_time w) = Return tt ->
  result (main sbatch os config configs ncpus ngpus wall_time after chain dry_run w)
  = Return tt
  \/ exists e,
       dry_run = false
       /\ result (main sbatch os config configs ncpus ngpus wall_time after chain
                    dry_run w) = SysExit e.
Proof.
  intros R. rewrite main_eq. cbv zeta. rewrite R.
  destruct dry_run; [left; reflexivity|]. cbn [result].
  apply _prep_generated, generated_opened in R.
  assert (F : Forall (fun c => exists script, with_suffix (Path c) SLURM = Some script)
                (config :: configs)).
  { apply Forall_forall. intros c I.
    destruct (Forall2_In_left _ _ _ _ R I) as (script & _ & W). eauto. }
  destruct (submit_returns_or_exits _ F (option_map JobInt after) chain w)
    as [E | (e & E)]; [left; exact E | right; eauto].
Qed.

(** Every script is generated before any is submitted: the trace of a run
    is the trace of the generator, made of file events only, followed by
    prints and external commands only; and when the generator raises,
    nothing is printed or run and the run ends with that exception. *)
Theorem generation_precedes_submission (config : str) (configs : list str)
    (ncpus ngpus : Z) (wall_time : str) (after : option Z)
    (chain dry_run : bool) (w : World) :
  exists tail,
    events (main sbatch os config configs ncpus ngpus wall_time after chain
              dry_run w)
    = events (_prep os (config :: configs) ncpus ngpus wall_time w) ++ tail
    /\ forallb is_file_event
         (events (_prep os (config :: configs) ncpus ngpus wall_time w)) = true
    /\ filter is_file_event tail = []
    /\ (forall e,
          result (_prep os (config :: configs) ncpus ngpus wall_time w) = Raise e ->
          tail = []
          /\ result (main sbatch os config configs ncpus ngpus wall_time after
                       chain dry_run w) = Raise e).
Proof.
  rewrite main_eq. cbv zeta.
  pose proof (_prep_file_events World os (config :: configs) ncpus ngpus wall_time w)
    as F.
  destruct (result (_prep os (config :: configs) ncpus ngpus wall_time w)) as [[]|e|e].
  - destruct dry_run; cbn [events].
    + exists []. rewrite app_nil_r.
      split; [reflexivity|]. split; [exact F|]. split; [reflexivity|]. discriminate.
    + exists (events (_submit sbatch (config :: configs) (option_map JobInt after)
                        chain w)).
      split; [reflexivity|]. split; [exact F|].
      split; [apply _submit_no_file_event | discriminate].
  - exists []. cbn [events result]. rewrite app_nil_r.
    split; [reflexivity|]. split; [exact F|]. split; [reflexivity|].
    intros e0 E0. injection E0 as <-. split; reflexivity.
  - exists []. cbn [events]. rewrite app_nil_r.
    split; [reflexivity|]. split; [exact F|]. split; [reflexivity|]. discriminate.
Qed.

(** With chaining, whatever the number of configs, every submission after
    the first carries the dependency clause for the last whitespace-delimited
    token of the output of the submission just before it. *)
Theorem chain_dependency_any_length (configs : list str)
    (after : option jobref) (w : World) (i : nat) (cmdline : list str)
    (cwd : PurePath) (out : run_outcome) :
  nth_error (runs (events (_submit sbatch configs after true w))) (S i)
  = Some (cmdline, cwd, out) ->
  exists cmdline0 cwd0 data stdout jobid c script,
    nth_error (runs (events (_submit sbatch configs after true w))) i
    = Some (cmdline0, cwd0, RunExited 0 data)
    /\ utf8_decode data = Some stdout
    /\ last_item (split stdout) = Some jobid
    /\ nth_error configs (S i) = Some c
    /\ with_suffix (Path c) SLURM = Some script
    /\ cmdline
       = [lit "sbatch"; str_of_path script; lit "--dependency=afterok:" ++ jobid].
Proof.
  intros E.
  destruct (chained_runs World sbatch _ _ _ _ _ _ _ E)
    as (cmdline0 & cwd0 & out0 & jobid & c & script & E0 & P & N & W & ->).
  destruct (parse_job_id_ok _ _ _ P) as (data & stdout & -> & D & L).
  exists cmdline0, cwd0, data, stdout, jobid, c, script. repeat split; auto.
Qed.

(** Each submission runs in the directory of its config and names the
    script by its path as given.  That path, taken from the working
    directory of the submission, is the script that was written exactly
    when the config is absolute or lies in the current directory; for a
    relative config in a directory [d] it is [d/d/x.slurm]. *)
Theorem script_argument_from_config_directory (configs : list str)
    (after : option jobref) (chain : bool) (w : World) (i : nat)
    (cmdline : list str) (cwd : PurePath) (out : run_outcome) :
  nth_error (runs (events (_submit sbatch configs after chain w))) i
  = Some (cmdline, cwd, out) ->
  exists c script,
    nth_error configs i = Some c
    /\ with_suffix (Path c) SLURM = Some script
    /\ nth_error cmdline 1 = Some (str_of_path script)
    /\ cwd = parent script
    /\ (is_absolute script = false ->
        join_paths cwd script
        = mkPath [] (comps cwd ++ comps cwd ++ [name script]))
    /\ (join_paths cwd script = script
        <-> is_absolute script = true \/ comps cwd = []).
Proof.
  intros E.
  destruct (runs_are_submissions World sbatch _ _ _ _ _ _ _ _ E)
    as (c & script & dep & N & W & -> & ->).
  destruct (with_suffix_slurm _ _ W) as (Es & _).
  exists c, script. split; [exact N|]. split; [exact W|]. split; [reflexivity|].
  subst script. unfold parent, join_paths, is_absolute, name. cbn [root comps].
  rewrite removelast_last, last_last.
  set (dir := removelast (comps (Path c))). set (nm := stem (Path c) ++ SLURM).
  split; [reflexivity|].
  destruct (root (Path c)) as [|x r]; split.
  - intros _. reflexivity.
  - split.
    + intros J. right. injection J as J.
      apply (f_equal (@List.length str)) in J. rewrite !length_app in J.
      destruct dir; [reflexivity | cbn in J; lia].
    + intros [A | C]; [discriminate | rewrite C; reflexivity].
  - discriminate.
  - split; [left; reflexivity | reflexivity].
Qed.

End ProcessEverywhere.

(** Three configs accepted by the scheduler. *)
Lemma all_configs_submitted_in_order_witness :
  List.length
    (runs (events (main Sample.accepting Sample.os (lit "a.conf")
                     [lit "b.conf"; lit "c.conf"] 2 1 (lit "12:00:00") None true
                     false 0%nat)))
  = 3%nat.
Proof.
  pose proof (all_configs_submitted_in_order nat Sample.accepting Sample.os
                (lit "a.conf") [lit "b.conf"; lit "c.conf"] 2 1 (lit "12:00:00")
                None true 0%nat eq_refl) as F.
  apply Forall2_length in F. symmetry. exact F.
Defined.

(** A scheduler whose output is not UTF-8 ends the run at the first config. *)
Lemma undecodable_output_is_fatal_witness :
  result (main Sample2.garbling Sample.os (lit "a.conf") [lit "b.conf"] 2 1
            (lit "12:00:00") None true false 0%nat)
  = SysExit (UnicodeDecodeError [xff; xfe])
  /\ List.length
       (runs (events (main Sample2.garbling Sample.os (lit "a.conf") [lit "b.conf"]
                        2 1 (lit "12:00:00") None true false 0%nat)))
     = 1%nat.
Proof.
  destruct (undecodable_output_is_fatal nat Sample2.garbling Sample.os (lit "a.conf")
              [lit "b.conf"] 2 1 (lit "12:00:00") None true 0%nat 0%nat
              [lit "sbatch"; lit "a.slurm"] (Path (lit "")) [xff; xfe]
              eq_refl eq_refl) as (R & _ & L).
  split; [exact R | exact L].
Defined.

(** The scripts of three configs are generated; the scheduler refuses the
    second, and the run exits. *)
Lemma no_uncaught_exception_after_generation_witness :
  exists e,
    result (main Sample.refusing_second Sample.os (lit "a.conf")
              [lit "b.conf"; lit "c.conf"] 2 1 (lit "12:00:00") None false false
              0%nat)
    = SysExit e.
Proof.
  destruct (no_uncaught_exception_after_generation nat Sample.refusing_second
              Sample.os (lit "a.conf") [lit "b.conf"; lit "c.conf"] 2 1
              (lit "12:00:00") None false false 0%nat eq_refl)
    as [R | (e & _ & R)].
  - vm_compute in R. discriminate R.
  - exists e. exact R.
Defined.

(** Four configs in a chain: the fourth waits for the third. *)
Lemma chain_dependency_any_length_witness :
  exists data stdout,
    nth_error
      (runs (events (_submit Sample.accepting
                       [lit "a.conf"; lit "b.conf"; lit "c.conf"; lit "d.conf"]
                       None true 0%nat))) 2
    = Some ([lit "sbatch"; lit "c.slurm"; lit "--dependency=afterok:102"],
            Path (lit ""), RunExited 0 data)
    /\ utf8_decode data = Some stdout
    /\ last_item (split stdout) = Some (lit "103").
Proof.
  destruct (chain_dependency_any_length nat Sample.accepting
              [lit "a.conf"; lit "b.conf"; lit "c.conf"; lit "d.conf"] None 0%nat
              2%nat [lit "sbatch"; lit "d.slurm"; lit "--dependency=afterok:103"]
              (Path (lit "")) (RunExited 0 (Sample.submitted 3)) eq_refl)
    as (cmdline0 & cwd0 & data & stdout & jobid & c & script
        & Run & Decoded & Last & _ & _ & Cmd).
  vm_compute in Run. injection Run as <- <- <-.
  exists (Sample.submitted 2), stdout. repeat split; auto.
  vm_compute in Decoded. injection Decoded as <-. reflexivity.
Defined.

(** A relative config in the directory [run1]: the submission runs in
    [run1] and is given [run1/a.slurm], which from there is
    [run1/run1/a.slurm]. *)
Lemma script_argument_from_config_directory_witness :
  exists script,
    with_suffix (Path (lit "run1/a.conf")) SLURM = Some script
    /\ join_paths (Path (lit "run1")) script = Path (lit "run1/run1/a.slurm").
Proof.
  destruct (script_argument_from_config_directory nat Sample.accepting
              [lit "run1/a.conf"] None false 0%nat 0%nat
              [lit "sbatch"; lit "run1/a.slurm"] (Path (lit "run1"))
              (RunExited 0 (Sample.submitted 0)) eq_refl)
    as (c & script & N & W & _ & Cwd & Rel & _).
  injection N as <-. exists script. split; [exact W|].
  assert (E : script = Path (lit "run1/a.slurm"))
    by (vm_compute in W; injection W as <-; reflexivity).
  subst script. reflexivity.
Defined.

(** ** The scripts: their text and their names *)
















Section ScriptText.

Variable World : Type.
Variable os : OS.



(** C7 (amended): after script generation, every config of the input has
    exactly one generated script in its directory with its stem; the script
    has the suffix [.slurm], and it is another file than the config exactly
    when the suffix of the config is not [.slurm]; configs with distinct
    stems have distinct scripts. *)
Theorem one_script_per_config (configs : list str) (ncpus ngpus : Z)
    (wall_time : str) (w : World) (c : str) :
  result (_prep os configs ncpus ngpus wall_time w) = Return tt ->
  In c configs ->
  exists script,
    with_suffix (Path c) SLURM = Some script
    /\ In script (opened (events (_prep os configs ncpus ngpus wall_time w)))
    /\ parent script = parent (Path c)
    /\ stem script = stem (Path c)
    /\ suffix script = SLURM
    /\ (script <> Path c <-> suffix (Path c) <> SLURM)
    /\ (forall script',
          In script' (opened (events (_prep os configs ncpus ngpus wall_time w))) ->
          parent script' = parent (Path c) -> stem script' = stem (Path c) ->
          script' = script)
    /\ (forall c' script',
          In c' configs -> with_suffix (Path c') SLURM = Some script' ->
          stem (Path c') <> stem (Path c) -> script' <> script).
Proof.
  intros R I. apply _prep_generated, generated_opened in R.
  destruct (Forall2_In_left _ _ _ _ R I) as (script & Is & W).
  destruct (with_suffix_slurm _ _ W) as (_ & Par & _ & St & Sf).
  exists script. repeat split; auto.
  - intros D S. apply D. rewrite (with_suffix_same _ S) in W.
    injection W as <-. reflexivity.
  - intros D E. apply D. rewrite <- E. exact Sf.
  - intros script' Is' Par' St'.
    destruct (Forall2_In_right _ _ _ _ R Is') as (c' & _ & W').
    exact (script_unique _ _ _ _ W W' Par' St').
  - intros c' script' _ W' N E. subst script'.
    destruct (with_suffix_slurm _ _ W') as (_ & _ & _ & St' & _).
    apply N. rewrite <- St', St. reflexivity.
Qed.

End ScriptText.



(** The script of [b.conf] among those of three configs. *)
Lemma one_script_per_config_witness :
  exists script,
    In script
       (opened (events (_prep Sample.os Sample.three_configs 2 1 (lit "12:00:00") tt)))
    /\ parent script = parent (Path (lit "b.conf"))
    /\ stem script = lit "b"
    /\ suffix script = lit ".slurm"
    /\ script <> Path (lit "b.conf").
Proof.
  destruct (one_script_per_config unit Sample.os Sample.three_configs 2 1
              (lit "12:00:00") tt (lit "b.conf")
              eq_refl (or_intror (or_introl eq_refl)))
    as (script & _ & Opened & Par & St & Sf & Differs & _).
  exists script. repeat split; auto.
  apply Differs. intros E. discriminate E.
Defined.

(** C7 as stated fails for a config that has the suffix [.slurm]: the one
    script generated for [job.slurm] is [job.slurm] itself, with the same
    suffix. *)
Lemma one_script_per_config_counterexample :
  result (_prep Sample.os [lit "job.slurm"] 2 1 (lit "12:00:00") tt) = Return tt
  /\ opened (events (_prep Sample.os [lit "job.slurm"] 2 1 (lit "12:00:00") tt))
     = [Path (lit "job.slurm")]
  /\ with_suffix (Path (lit "job.slurm")) SLURM = Some (Path (lit "job.slurm"))
  /\ suffix (Path (lit "job.slurm")) = SLURM.
Proof. repeat split. Qed.
